(** * Point-in-time view over a versioned GCS bucket (repo/blob/gcs)

    A shallow embedding of [gcs_pit.go] and [gcs_versioned.go]: the
    version lister ([list], [getBlobVersions], [listBlobVersions],
    [getVersionMetadata]), the resolver ([getOlderThan],
    [newestAtUnlessDeleted]), the decorator ([ListBlobs], [getMetadata],
    [GetMetadata]) and its construction ([maybePointInTimeStore]).

    Conventions.
    - [time.Time] is an instant counted from Go's zero time, an integer;
      [IsZero], [After] and [Before] compare instants.
    - A Go [error] result is [option error]: [None] is [nil].
    - The bucket iterator is the finite sequence of object attributes it
      yields, ended by [iterator.Done] or by an error.
    - A callback is a closure: it is a function on the state it captures.
    - The [fmt.Printf] and [fmt.Println] diagnostics write to standard
      output only and take no part in any returned value; they are left
      out. *)

From Stdlib Require Import ZArith String DecimalString Sorted Lia.
From stdpp Require Import base option list strings.

Local Open Scope string_scope.
Local Open Scope list_scope.
Local Open Scope Z_scope.

(** ** time.Time *)

Module time.
Definition Time : Type := Z.

(** The zero value of [time.Time]. *)
Definition zero : Time := 0.

Definition IsZero (t : Time) : bool := t =? 0.
Definition After (t u : Time) : bool := u <? t.
Definition Before (t u : Time) : bool := t <? u.
End time.

(** ** Package blob: identifiers, metadata, the not-found error *)

Module blob.
Definition ID : Type := string.

Record Metadata : Type := mkMetadata {
  BlobID : ID;
  Length : Z;
  Timestamp : time.Time;
}.

Definition zeroMetadata : Metadata :=
  {| BlobID := ""; Length := 0; Timestamp := time.zero |}.
End blob.

(** ** Errors

    [errors.Errorf] and [errors.Wrapf] keep their format string and their
    arguments, so that a message can be inspected without a model of the
    formatting verbs. *)

Inductive arg : Type :=
| AStr (s : string)
| ATime (t : time.Time).

Inductive error : Type :=
| ErrBlobNotFound
| ClientError (msg : string)
| Errorf (format : string) (args : list arg)
| Wrapf (cause : error) (format : string) (args : list arg).



(** ** Version records (gcs_versioned.go) *)

Record versionMetadata : Type := mkVersionMetadata {
  Metadata : blob.Metadata;
  IsDeleteMarker : bool;
  Version : string;
}.

(** The zero value [versionMetadata{}]. *)
Definition zeroVersionMetadata : versionMetadata :=
  {| Metadata := blob.zeroMetadata; IsDeleteMarker := false; Version := "" |}.

Definition Timestamp (v : versionMetadata) : time.Time :=
  blob.Timestamp (Metadata v).
Definition BlobID (v : versionMetadata) : blob.ID :=
  blob.BlobID (Metadata v).

(** ** The resolver (gcs_pit.go) *)

(** The loop returns [vs[:i]] at the first [i] whose timestamp is after
    [t], and [vs] when there is none. *)
Fixpoint getOlderThan (vs : list versionMetadata) (t : time.Time)
  : list versionMetadata :=
  match vs with
  | [] => []
  | v :: rest =>
      if time.After (Timestamp v) t then [] else v :: getOlderThan rest t
  end.

Definition newestAtUnlessDeleted (vs : list versionMetadata) (t : time.Time)
  : versionMetadata * bool :=
  match last (getOlderThan vs t) with
  | None => (zeroVersionMetadata, false)
  | Some v => (v, negb (IsDeleteMarker v))
  end.

(** ** The storage client (cloud.google.com/go/storage)

    Only what the point-in-time code reads of it: the attributes of an
    object generation, the attributes of a bucket, a listing query and the
    iterator that answers it. *)

Module storage.
Record ObjectAttrs : Type := mkObjectAttrs {
  Name : string;
  Size : Z;
  Created : time.Time;
  Deleted : time.Time;
  Generation : Z;
}.

Record BucketAttrs : Type := mkBucketAttrs {
  VersioningEnabled : bool;
}.

Record Query : Type := mkQuery {
  Prefix : string;
  Versions : bool;
}.

(** What successive calls of [it.Next()] return: the [items] in turn, then
    [iterator.Done] when [final] is [None], or the error [final] holds. *)
Record ObjectIterator : Type := mkObjectIterator {
  items : list ObjectAttrs;
  final : option error;
}.

(** A bucket handle answers [Attrs] and [Objects]. *)
Record BucketHandle : Type := mkBucketHandle {
  Attrs : BucketAttrs + error;
  Objects : Query -> ObjectIterator;
}.
End storage.

(** ** gcsStorage *)

(** Modelled from the spec: the declarations of [Options] and [gcsStorage]
    of package gcs are not among the sources. The fields are the ones the
    functions below select: [BucketName], the namespace [Prefix], the
    optional [PointInTime] of the options and the [bucket] handle. *)
Record gcsStorage : Type := mkGcsStorage {
  BucketName : string;
  Prefix : string;
  PointInTime : option time.Time;
  bucket : storage.BucketHandle;
}.

(** Modelled from the spec: [getObjectNameString] of package gcs is not
    among the sources. A prefix is "a string namespace qualifier prepended
    to blob IDs"; the [gcsStorage] of package blob, which is among them,
    composes the name the same way. *)
Definition getObjectNameString (gcs : gcsStorage) (b : blob.ID) : string :=
  Prefix gcs +:+ b.

(** ** gcsPointInTimeStorage (gcs_pit.go) *)

Record gcsPointInTimeStorage : Type := mkGcsPointInTimeStorage {
  base : gcsStorage;
  pointInTime : time.Time;
}.

(** ** strings.TrimPrefix and strconv.FormatInt *)

Fixpoint stripPrefix (s prefix : string) : option string :=
  match prefix, s with
  | EmptyString, _ => Some s
  | String c prefix', String d s' =>
      if Ascii.eqb c d then stripPrefix s' prefix' else None
  | String _ _, EmptyString => None
  end.

(** [s] without the leading [prefix]; [s] itself when it does not start
    with [prefix]. *)
Definition TrimPrefix (s prefix : string) : string :=
  default s (stripPrefix s prefix).

(** [strconv.FormatInt(i, 10)]. *)
Definition FormatInt10 (i : Z) : string :=
  NilZero.string_of_int (Z.to_int i).

(** ** The version lister (gcs_versioned.go) *)

Definition toBlobID (blobName prefix : string) : blob.ID :=
  TrimPrefix blobName prefix.

Definition getVersionMetadata (gcs : gcsPointInTimeStorage)
    (prefix : string) (oi : storage.ObjectAttrs) : versionMetadata :=
  let bm := {| blob.BlobID := toBlobID (storage.Name oi) prefix;
               blob.Length := storage.Size oi;
               blob.Timestamp := storage.Created oi |} in
  {| Metadata := bm;
     IsDeleteMarker :=
       negb (time.IsZero (storage.Deleted oi))
       && match PointInTime (base gcs) with
          | None => true
          | Some pit => time.Before (storage.Deleted oi) pit
          end;
     Version := FormatInt10 (storage.Generation oi) |}.

(** A callback over the state [St] it closes over. *)
Definition versionMetadataCallback (St : Type) : Type :=
  St -> versionMetadata -> St * option error.

(** The [for] loop of [list] over what the iterator yields. *)
Fixpoint list_loop {St : Type}
    (gcs : gcsPointInTimeStorage) (query : storage.Query)
    (onlyMatching : bool) (callback : versionMetadataCallback St)
    (its : list storage.ObjectAttrs) (fin : option error) (s : St)
  : St * option error :=
  match its with
  | [] =>
      match fin with
      | None => (s, None)
      | Some err =>
          (s, Some (Wrapf err "could not list objects with prefix %q"
                      [AStr (storage.Prefix query)]))
      end
  | attrs :: rest =>
      if onlyMatching
         && negb (String.eqb (storage.Name attrs) (storage.Prefix query))
      then (s, None)
      else
        let om := getVersionMetadata gcs (storage.Prefix query) attrs in
        match callback s om with
        | (s', Some errCallback) =>
            (s', Some (Wrapf errCallback "callback failed for %q"
                         [AStr (storage.Name attrs)]))
        | (s', None) => list_loop gcs query onlyMatching callback rest fin s'
        end
  end.

(** [gcs.list]; named [list_] because [list] is the type of lists. *)
Definition list_ {St : Type}
    (gcs : gcsPointInTimeStorage) (prefix : blob.ID)
    (onlyMatching : bool) (callback : versionMetadataCallback St) (s : St)
  : St * option error :=
  let query := {| storage.Prefix := getObjectNameString (base gcs) prefix;
                  storage.Versions := true |} in
  let it := storage.Objects (bucket (base gcs)) query in
  list_loop gcs query onlyMatching callback
    (storage.items it) (storage.final it) s.

Definition getBlobVersions {St : Type}
    (gcs : gcsPointInTimeStorage) (prefix : blob.ID)
    (callback : versionMetadataCallback St) (s : St) : St * option error :=
  let '((foundBlobs, s'), r) :=
    list_ (St := bool * St) gcs prefix true
      (fun '(_, s0) vm =>
         let '(s1, err) := callback s0 vm in ((true, s1), err))
      (false, s) in
  match r with
  | Some err => (s', Some err)
  | None => if negb foundBlobs then (s', Some ErrBlobNotFound) else (s', None)
  end.

Definition listBlobVersions {St : Type}
    (gcs : gcsPointInTimeStorage) (prefix : blob.ID)
    (callback : versionMetadataCallback St) (s : St) : St * option error :=
  list_ gcs prefix false callback s.

(** The listing [list_] asks the bucket for. *)
Definition listingFor (gcs : gcsPointInTimeStorage) (prefix : blob.ID)
  : storage.ObjectIterator :=
  storage.Objects (bucket (base gcs))
    {| storage.Prefix := getObjectNameString (base gcs) prefix;
       storage.Versions := true |}.



(** ** The decorator (gcs_pit.go) *)

(** The closure [ListBlobs] hands to [listBlobVersions]. It closes over
    [previousID], [vs] and whatever [cb] closes over. The winner [v] is
    copied out of [vs] before [vs] is cut to [vs[:0]] and appended to, so
    the reuse of the array of [vs] is not seen: [vs] is a sequence here. *)
Definition ListBlobs_callback {St : Type} (gcs : gcsPointInTimeStorage)
    (cb : St -> blob.Metadata -> St * option error)
  : versionMetadataCallback (blob.ID * list versionMetadata * St) :=
  fun '(previousID, vs, s) vm =>
    if negb (String.eqb (BlobID vm) previousID) then
      match newestAtUnlessDeleted vs (pointInTime gcs) with
      | (v, true) =>
          match cb s (Metadata v) with
          | (s', Some err) => ((previousID, vs, s'), Some err)
          | (s', None) => ((BlobID vm, [vm], s'), None)
          end
      | (_, false) => ((BlobID vm, [vm], s), None)
      end
    else ((previousID, vs ++ [vm], s), None).

Definition ListBlobs {St : Type} (gcs : gcsPointInTimeStorage)
    (blobIDPrefix : blob.ID)
    (cb : St -> blob.Metadata -> St * option error) (s : St)
  : St * option error :=
  let '((_, vs, s'), r) :=
    listBlobVersions gcs blobIDPrefix (ListBlobs_callback gcs cb)
      ("", [], s) in
  match r with
  | Some err =>
      (s', Some (Wrapf err "could not list blob versions at time %s"
                   [ATime (pointInTime gcs)]))
  | None =>
      match newestAtUnlessDeleted vs (pointInTime gcs) with
      | (v, true) => cb s' (Metadata v)
      | (_, false) => (s', None)
      end
  end.

Definition getMetadata (gcs : gcsPointInTimeStorage) (b : blob.ID)
  : versionMetadata * option error :=
  let '(vml, r) :=
    getBlobVersions gcs b
      (fun vml m =>
         if negb (time.After (Timestamp m) (pointInTime gcs))
         then (vml ++ [m], None)
         else (vml, None))
      [] in
  match r with
  | Some err =>
      (zeroVersionMetadata,
       Some (Wrapf err "could not get version metadata for blob %s" [AStr b]))
  | None =>
      match newestAtUnlessDeleted vml (pointInTime gcs) with
      | (v, true) => (v, None)
      | (_, false) => (zeroVersionMetadata, Some ErrBlobNotFound)
      end
  end.

Definition GetMetadata (gcs : gcsPointInTimeStorage) (b : blob.ID)
  : blob.Metadata * option error :=
  let '(bm, err) := getMetadata gcs b in (Metadata bm, err).

(** [GetBlob] fetches the payload of the generation [getMetadata] resolved.
    [getBlobWithVersion] is a method of [gcsStorage]; it is a parameter
    here. *)
Definition GetBlob {Bytes : Type}
    (getBlobWithVersion :
       gcsStorage -> blob.ID -> string -> Z -> Z -> Bytes * option error)
    (empty : Bytes)
    (gcs : gcsPointInTimeStorage) (b : blob.ID) (offset length : Z)
  : Bytes * option error :=
  match getMetadata gcs b with
  | (_, Some err) => (empty, Some (Wrapf err "getting metadata" []))
  | (m, None) => getBlobWithVersion (base gcs) b (Version m) offset length
  end.

(** ** Observing a callback

    [traced callback] behaves as [callback] and also records, in order,
    every argument it is invoked with and what it answered. *)

Definition traced {St A : Type} (callback : St -> A -> St * option error)
  : list (A * option error) * St -> A
    -> (list (A * option error) * St) * option error :=
  fun '(log, s) a =>
    let '(s', r) := callback s a in ((log ++ [(a, r)], s'), r).

(** No recorded invocation failed. *)
Definition allAccepted {A : Type} (log : list (A * option error)) : Prop :=
  Forall (fun x => snd x = None) log.

(** The invocation that answered [e] on [a] is the last of [log], and the
    only one that failed. *)
Definition failedLast {A : Type} (log : list (A * option error))
    (a : A) (e : error) : Prop :=
  exists log0, log = log0 ++ [(a, Some e)] /\ allAccepted log0.


(** ** Words of the specification about a version sequence *)

(** Newest first. *)
Definition descending (vs : list versionMetadata) : Prop :=
  Sorted (fun a b => Timestamp b <= Timestamp a) vs.

(** Oldest first. *)
Definition ascending (vs : list versionMetadata) : Prop :=
  Sorted (fun a b => Timestamp a <= Timestamp b) vs.

(** [v] is a record of [vs] with the maximum timestamp at or before [T]. *)
Definition newestAtOrBefore (vs : list versionMetadata) (T : time.Time)
    (v : versionMetadata) : Prop :=
  v ∈ vs /\ Timestamp v <= T /\
  forall w, w ∈ vs -> Timestamp w <= T -> Timestamp w <= Timestamp v.

(** ** The resolver on Go slices

    A slice is a window on a backing array; [vs[:i]] shares the array with
    [vs]. The memory is the sequence of its cells, and code runs in a state
    monad over it that fails on an index out of range. *)

Module slices.
Record slice : Type := mkSlice {
  ptr : nat;
  len : nat;
  cap : nat;
}.

Definition memory : Type := list versionMetadata.

Definition M (A : Type) : Type := memory -> option (A * memory).

Definition ret {A : Type} (a : A) : M A := fun m => Some (a, m).

Definition bind {A B : Type} (c : M A) (k : A -> M B) : M B :=
  fun m => match c m with
           | None => None
           | Some (a, m') => k a m'
           end.

Definition panic {A : Type} : M A := fun _ => None.

(** [vs[i]] as a value. *)
Definition load (vs : slice) (i : nat) : M versionMetadata :=
  fun m =>
    if (i <? len vs)%nat
    then match m !! (ptr vs + i)%nat with
         | Some v => Some (v, m)
         | None => None
         end
    else None.

(** [vs[i] = v]. *)
Definition store (vs : slice) (i : nat) (v : versionMetadata) : M unit :=
  fun m =>
    if (i <? len vs)%nat && (ptr vs + i <? length m)%nat
    then Some (tt, <[(ptr vs + i)%nat := v]> m)
    else None.

(** [vs[:i]]. *)
Definition upto (vs : slice) (i : nat) : M slice :=
  if (i <=? cap vs)%nat
  then ret {| ptr := ptr vs; len := i; cap := cap vs |}
  else panic.

(** The entries a slice shows, in order. *)
Definition view (m : memory) (vs : slice) : list versionMetadata :=
  take (len vs) (drop (ptr vs) m).

(** The slice lies within the memory. *)
Definition valid (m : memory) (vs : slice) : Prop :=
  (len vs <= cap vs)%nat /\ (ptr vs + len vs <= length m)%nat.

(** [for i := range vs] from index [i], with [n] entries left. *)
Fixpoint getOlderThan_from (vs : slice) (t : time.Time) (n i : nat)
  : M slice :=
  match n with
  | O => ret vs
  | S n' =>
      bind (load vs i) (fun v =>
        if time.After (Timestamp v) t
        then upto vs i
        else getOlderThan_from vs t n' (S i))
  end.

Definition getOlderThan (vs : slice) (t : time.Time) : M slice :=
  getOlderThan_from vs t (len vs) 0.

Definition newestAtUnlessDeleted (vs : slice) (t : time.Time)
  : M (versionMetadata * bool) :=
  bind (getOlderThan vs t) (fun vs' =>
    if (len vs' =? 0)%nat
    then ret (zeroVersionMetadata, false)
    else bind (load vs' (len vs' - 1)) (fun v =>
           ret (v, negb (IsDeleteMarker v)))).
End slices.

(** ** Construction of the view (gcs_pit.go) *)

(** The values [maybePointInTimeStore] returns as a [blob.Storage]: the
    live storage, or the point-in-time storage inside the read-only
    wrapper. *)
Inductive Storage : Type :=
| Live (gcs : gcsStorage)
| PointInTimeStorage (pit : gcsPointInTimeStorage)
| ReadonlyWrapper (wrapped : Storage).

(** [maybePointInTimeStore gcs pointInTime]. The outer [option] is [None]
    when the function panics: it dereferences [pointInTime] after having
    tested the pointer in the options, not [pointInTime] itself. *)
Definition maybePointInTimeStore (gcs : gcsStorage)
    (pointInTime : option time.Time)
  : option (option Storage * option error) :=
  let unrequested :=
    match PointInTime gcs with
    | None => true
    | Some pit => time.IsZero pit
    end in
  if unrequested then Some (Some (Live gcs), None)
  else
    match pointInTime with
    | None => None
    | Some t =>
        match storage.Attrs (bucket gcs) with
        | inr err =>
            Some (None,
                  Some (Wrapf err
                    "could not get determine if bucket '%s' supports versioning"
                    [AStr (BucketName gcs)]))
        | inl attrs =>
            if negb (storage.VersioningEnabled attrs)
            then
              Some (None,
                    Some (Errorf
                      "cannot create point-in-time view for non-versioned bucket '%s'"
                      [AStr (BucketName gcs)]))
            else
              Some (Some (ReadonlyWrapper
                            (PointInTimeStorage
                               {| base := gcs; pointInTime := t |})),
                    None)
        end
    end.

(** ** Calls through a [blob.Storage]

    The bucket is the state calls act on. A [World] holds what the bucket
    contains and the requests to change it that reached the object
    service. The [bucket] field of a [gcsStorage] stands for the bucket as
    it is at the time of a call. *)

Inductive Request : Type :=
| InsertObject (name : string)
| DeleteObject (name : string).

Record World : Type := mkWorld {
  remote : storage.BucketHandle;
  requests : list Request;
}.

(** The object service: what inserting and deleting an object do to the
    bucket, and reading a generation of an object. *)
Record ObjectsService (Bytes : Type) : Type := mkObjectsService {
  Insert : string -> Bytes -> storage.BucketHandle
           -> storage.BucketHandle * option error;
  Delete : string -> storage.BucketHandle
           -> storage.BucketHandle * option error;
  Read : string -> string -> Z -> Z -> storage.BucketHandle
         -> Bytes * option error;
  noBytes : Bytes;
}.
Arguments Insert {Bytes} _ _ _ _.
Arguments Delete {Bytes} _ _ _.
Arguments Read {Bytes} _ _ _ _ _ _.
Arguments noBytes {Bytes} _.

Definition attach (w : World) (gcs : gcsStorage) : gcsStorage :=
  {| BucketName := BucketName gcs; Prefix := Prefix gcs;
     PointInTime := PointInTime gcs; bucket := remote w |}.

Definition attachPIT (w : World) (pit : gcsPointInTimeStorage)
  : gcsPointInTimeStorage :=
  {| base := attach w (base pit); pointInTime := pointInTime pit |}.

Module gcsStorageMethods.
(** Modelled from the spec: [PutBlob] of [gcsStorage] in package gcs is not
    among the sources. It "writes a new version" of the object named by the
    prefixed blob ID: one insert request to the object service. *)
Definition PutBlob {Bytes : Type} (svc : ObjectsService Bytes)
    (gcs : gcsStorage) (id : blob.ID) (data : Bytes) (w : World)
  : World * option error :=
  let name := getObjectNameString gcs id in
  let '(b, r) := Insert svc name data (remote w) in
  ({| remote := b; requests := requests w ++ [InsertObject name] |}, r).

(** Modelled from the spec: [DeleteBlob] of [gcsStorage] in package gcs is
    not among the sources. It deletes the object named by the prefixed blob
    ID: one delete request to the object service. *)
Definition DeleteBlob {Bytes : Type} (svc : ObjectsService Bytes)
    (gcs : gcsStorage) (id : blob.ID) (w : World)
  : World * option error :=
  let name := getObjectNameString gcs id in
  let '(b, r) := Delete svc name (remote w) in
  ({| remote := b; requests := requests w ++ [DeleteObject name] |}, r).

(** Modelled from the spec: [getBlobWithVersion] of [gcsStorage] is not
    among the sources. It "fetches the payload for the specific resolved
    version": one read of that generation of the object. *)
Definition getBlobWithVersion {Bytes : Type} (svc : ObjectsService Bytes)
    (gcs : gcsStorage) (b : blob.ID) (version : string) (offset length : Z)
  : Bytes * option error :=
  Read svc (getObjectNameString gcs b) version offset length (bucket gcs).

(** The reads of the live storage, left open. *)
Record LiveReads (Bytes St : Type) : Type := mkLiveReads {
  liveGetBlob : gcsStorage -> blob.ID -> Z -> Z -> Bytes * option error;
  liveGetMetadata : gcsStorage -> blob.ID -> blob.Metadata * option error;
  liveListBlobs : gcsStorage -> blob.ID
                  -> (St -> blob.Metadata -> St * option error)
                  -> St -> St * option error;
}.
Arguments liveGetBlob {Bytes St} _ _ _ _ _.
Arguments liveGetMetadata {Bytes St} _ _ _.
Arguments liveListBlobs {Bytes St} _ _ _ _ _.
End gcsStorageMethods.

Module readonly.
(** Modelled from the spec: package readonly is not among the sources.
    [ErrReadonly] is the error with which the guard rejects a mutating
    call. *)
Definition ErrReadonly : error := Errorf "storage is read-only" [].
End readonly.

(** Method dispatch on the dynamic type of a [blob.Storage]:
    [Storage_PutBlob st] is [st.PutBlob], and so on. The point-in-time
    storage embeds [gcsStorage], so its [PutBlob] and [DeleteBlob] are the
    promoted methods of the embedded value; the three reads are its own. *)
Import gcsStorageMethods.

(** Modelled from the spec: the case of the wrapper, whose package is not
    among the sources. "The guard rejects mutating calls without reaching
    the decorator." *)
Definition Storage_PutBlob {Bytes : Type} (svc : ObjectsService Bytes)
    (st : Storage) (id : blob.ID) (data : Bytes) (w : World)
  : World * option error :=
  match st with
  | Live gcs => PutBlob svc gcs id data w
  | PointInTimeStorage pit => PutBlob svc (base pit) id data w
  | ReadonlyWrapper _ => (w, Some readonly.ErrReadonly)
  end.

(** Modelled from the spec: the case of the wrapper, as for
    [Storage_PutBlob]. *)
Definition Storage_DeleteBlob {Bytes : Type} (svc : ObjectsService Bytes)
    (st : Storage) (id : blob.ID) (w : World) : World * option error :=
  match st with
  | Live gcs => DeleteBlob svc gcs id w
  | PointInTimeStorage pit => DeleteBlob svc (base pit) id w
  | ReadonlyWrapper _ => (w, Some readonly.ErrReadonly)
  end.

(** Modelled from the spec: the case of the wrapper, which passes every
    call that is not a mutation to the storage it wraps. *)
Fixpoint Storage_GetBlob {Bytes St : Type} (svc : ObjectsService Bytes)
    (live : LiveReads Bytes St)
    (st : Storage) (id : blob.ID) (offset length : Z) (w : World)
  : World * (Bytes * option error) :=
  match st with
  | Live gcs => (w, liveGetBlob live (attach w gcs) id offset length)
  | PointInTimeStorage pit =>
      (w, GetBlob (getBlobWithVersion svc) (noBytes svc)
            (attachPIT w pit) id offset length)
  | ReadonlyWrapper wrapped =>
      Storage_GetBlob svc live wrapped id offset length w
  end.

(** Modelled from the spec: the case of the wrapper, as for
    [Storage_GetBlob]. *)
Fixpoint Storage_GetMetadata {Bytes St : Type} (live : LiveReads Bytes St)
    (st : Storage) (id : blob.ID) (w : World)
  : World * (blob.Metadata * option error) :=
  match st with
  | Live gcs => (w, liveGetMetadata live (attach w gcs) id)
  | PointInTimeStorage pit => (w, GetMetadata (attachPIT w pit) id)
  | ReadonlyWrapper wrapped => Storage_GetMetadata live wrapped id w
  end.

(** Modelled from the spec: the case of the wrapper, as for
    [Storage_GetBlob]. *)
Fixpoint Storage_ListBlobs {Bytes St : Type} (live : LiveReads Bytes St)
    (st : Storage) (prefix : blob.ID)
    (cb : St -> blob.Metadata -> St * option error) (s : St) (w : World)
  : World * (St * option error) :=
  match st with
  | Live gcs => (w, liveListBlobs live (attach w gcs) prefix cb s)
  | PointInTimeStorage pit => (w, ListBlobs (attachPIT w pit) prefix cb s)
  | ReadonlyWrapper wrapped => Storage_ListBlobs live wrapped prefix cb s w
  end.


(** ** Sample data

    The histories and buckets of the scenarios the properties below are
    evaluated on. *)

Module Samples.
(** A version record of blob [x]. *)
Definition version (ts : time.Time) (deleted : bool) (gen : string)
  : versionMetadata :=
  {| Metadata := {| blob.BlobID := "x"; blob.Length := 1;
                    blob.Timestamp := ts |};
     IsDeleteMarker := deleted;
     Version := gen |}.

(** Scenario A, newest first: deleted at 30, overwritten at 20, created
    at 10. *)
Definition historyDescending : list versionMetadata :=
  [version 30 true "3"; version 20 false "2"; version 10 false "1"].

(** The same history, oldest first. *)
Definition historyAscending : list versionMetadata :=
  [version 10 false "1"; version 20 false "2"; version 30 true "3"].

(** An object generation; [deleted = 0] is the zero time: not deleted. *)
Definition object (name : string) (created deleted : time.Time) (gen : Z)
  : storage.ObjectAttrs :=
  {| storage.Name := name; storage.Size := 1; storage.Created := created;
     storage.Deleted := deleted; storage.Generation := gen |}.

(** A versioned bucket that answers every listing with [its], then
    [fin]. *)
Definition bucketOf (its : list storage.ObjectAttrs) (fin : option error)
  : storage.BucketHandle :=
  {| storage.Attrs := inl {| storage.VersioningEnabled := true |};
     storage.Objects := fun _ =>
       {| storage.items := its; storage.final := fin |} |}.

(** A point-in-time storage for horizon [T] over such a bucket, with an
    empty namespace prefix. *)
Definition viewAt (T : time.Time) (its : list storage.ObjectAttrs)
    (fin : option error) : gcsPointInTimeStorage :=
  {| base := {| BucketName := "bkt"; Prefix := "";
                PointInTime := Some T; bucket := bucketOf its fin |};
     pointInTime := T |}.

(** Scenario A as a listing of the generations of [x], newest first. The
    generation created at 30 is the delete: it carries a deletion time. *)
Definition listingDescending : list storage.ObjectAttrs :=
  [object "x" 30 30 3; object "x" 20 0 2; object "x" 10 0 1].

Definition listingAscending : list storage.ObjectAttrs :=
  [object "x" 10 0 1; object "x" 20 0 2; object "x" 30 30 3].

(** A storage with the options' point-in-time [pit] over an empty bucket
    whose versioning attribute is [versioning]. *)
Definition storageOf (pit : option time.Time) (versioning : bool)
  : gcsStorage :=
  {| BucketName := "bkt"; Prefix := ""; PointInTime := pit;
     bucket :=
       {| storage.Attrs := inl {| storage.VersioningEnabled := versioning |};
          storage.Objects := fun _ =>
            {| storage.items := []; storage.final := None |} |} |}.

(** Scenario C: blob [a1] created at 10; blob [a2] created at 20, then a
    generation of 30 that carries a deletion time. *)
Definition listingC : list storage.ObjectAttrs :=
  [object "a1" 10 0 1; object "a2" 20 0 1; object "a2" 30 30 2].

(** Blob [x] listed after an object whose name only starts with [x]. *)
Definition listingLongerNameFirst : list storage.ObjectAttrs :=
  [object "xy" 10 0 1; object "x" 20 0 1].

(** A callback that always succeeds, and one that always fails. *)
Definition accept (s : unit) (m : blob.Metadata) : unit * option error :=
  (s, None).

Definition refuse (s : unit) (m : blob.Metadata) : unit * option error :=
  (s, Some (Errorf "refused" [])).

Definition acceptVersion (s : unit) (m : versionMetadata)
  : unit * option error :=
  (s, None).
End Samples.

Module ServiceSamples.
(** An object service over payloads without content: an insert adds a
    generation named as asked to every listing, a delete empties the
    listings. *)
Definition service : ObjectsService unit :=
  {| Insert := fun name _ b =>
       ({| storage.Attrs := storage.Attrs b;
           storage.Objects := fun q =>
             {| storage.items :=
                  storage.items (storage.Objects b q)
                    ++ [Samples.object name 50 0 9];
                storage.final := storage.final (storage.Objects b q) |} |},
        None);
     Delete := fun _ b =>
       ({| storage.Attrs := storage.Attrs b;
           storage.Objects := fun _ =>
             {| storage.items := []; storage.final := None |} |},
        None);
     Read := fun _ _ _ _ _ => (tt, None);
     noBytes := tt |}.

Definition liveReads : gcsStorageMethods.LiveReads unit unit :=
  {| gcsStorageMethods.liveGetBlob := fun _ _ _ _ => (tt, None);
     gcsStorageMethods.liveGetMetadata := fun _ _ =>
       (blob.zeroMetadata, Some ErrBlobNotFound);
     gcsStorageMethods.liveListBlobs := fun _ _ _ s => (s, None) |}.

Definition world : World :=
  {| remote := Samples.bucketOf Samples.listingAscending None;
     requests := [] |}.
End ServiceSamples.

(** ** Words for the behaviour of the lister and of [ListBlobs] *)

(** The objects at the front of a listing that are named exactly [q]:
    the ones [list] reaches when it is asked for matching names only. *)
Fixpoint leadingExact (q : string) (its : list storage.ObjectAttrs)
  : list storage.ObjectAttrs :=
  match its with
  | [] => []
  | oi :: rest =>
      if String.eqb (storage.Name oi) q
      then oi :: leadingExact q rest
      else []
  end.

(** The maximal runs of adjacent records with the same blob ID. *)
Fixpoint runs (vs : list versionMetadata) : list (list versionMetadata) :=
  match vs with
  | [] => []
  | v :: rest =>
      match runs rest with
      | (w :: g) :: gs =>
          if String.eqb (BlobID v) (BlobID w)
          then (v :: w :: g) :: gs
          else [v] :: (w :: g) :: gs
      | _ => [[v]]
      end
  end.

(** What the resolver makes of one run: the metadata to report, if any. *)
Definition winner (T : time.Time) (g : list versionMetadata)
  : option blob.Metadata :=
  match newestAtUnlessDeleted g T with
  | (v, true) => Some (Metadata v)
  | (_, false) => None
  end.

Definition winners (T : time.Time) (gs : list (list versionMetadata))
  : list blob.Metadata :=
  omap (winner T) gs.

(** A callback that never returns an error. *)
Definition accepts {St A : Type} (cb : St -> A -> St * option error)
  : Prop :=
  forall s a, snd (cb s a) = None.

(** The objects [list] reaches before it returns: all of them, or the
    leading ones with the exact name when only matching names are asked
    for. *)
Definition reached (onlyMatching : bool) (q : string)
    (its : list storage.ObjectAttrs) : list storage.ObjectAttrs :=
  if onlyMatching then leadingExact q its else its.

(** What [list] returns when its callback never fails: nil when it stopped
    at an object of another name, else what the iterator ended with, an
    error being wrapped with the prefix. *)
Definition listOutcome (onlyMatching : bool) (q : string)
    (its : list storage.ObjectAttrs) (fin : option error) : option error :=
  if (length (reached onlyMatching q its) <? length its)%nat then None
  else
    match fin with
    | None => None
    | Some err =>
        Some (Wrapf err "could not list objects with prefix %q" [AStr q])
    end.

(** The state a callback is left in after it was handed the records
    [recs] in turn. *)
Definition handed {St A : Type} (cb : St -> A -> St * option error)
    (s : St) (recs : list A) : St :=
  foldl (fun s a => fst (cb s a)) s recs.

(** * Package dir: the filesystem lister (dir/lister.go) *)

Module dir.
(** What the lister reads of an [os.FileInfo]: [Mode] is the [os.FileMode],
    an unsigned 32-bit number. *)
Record FileInfo : Type := mkFileInfo {
  Name : string;
  Size : Z;
  Mode : Z;
  ModTime : time.Time;
}.

(** Modelled from the spec: the declaration of [EntryType] is not among the
    sources. An entry's type is one of "File, Directory, Symlink, ...". *)
Inductive EntryType : Type :=
| EntryTypeUnknown
| EntryTypeFile
| EntryTypeDirectory
| EntryTypeSymlink.

#[global] Instance EntryType_eq_dec : EqDecision EntryType.
Proof. solve_decision. Defined.

Definition EntryType_eqb (a b : EntryType) : bool :=
  match a, b with
  | EntryTypeUnknown, EntryTypeUnknown
  | EntryTypeFile, EntryTypeFile
  | EntryTypeDirectory, EntryTypeDirectory
  | EntryTypeSymlink, EntryTypeSymlink => true
  | _, _ => false
  end.

(** Modelled from the spec: the declaration of [Entry] is not among the
    sources. The fields are the ones [entryFromFileSystemInfo] sets; the
    opener is the directory and the name its closure captures. *)
Record Entry : Type := mkEntry {
  EName : string;
  EMode : Z;
  EModTime : time.Time;
  EType : EntryType;
  ESize : Z;
  EOpen : string * string;
}.

Record Listing : Type := mkListing {
  Directories : list Entry;
  Files : list Entry;
}.

(** The conversion [int16(x)] of an integer: the low 16 bits, signed. *)
Definition int16 (x : Z) : Z := (x + 32768) mod 65536 - 32768.

(** [m.Perm()]: the permission bits, [m & 0777]. *)
Definition Perm (m : Z) : Z := Z.land m 511.

(** [openFileFunc]: the closure opens the file [fi.Name()] of
    [parentDir]. *)
Definition openFileFunc (parentDir : string) (fi : FileInfo)
  : string * string :=
  (parentDir, Name fi).

(** The entry [entryFromFileSystemInfo] builds before it hands it to
    [populatePlatformSpecificEntryDetails]. [FileModeToType] is not among
    the sources; it is a parameter. *)
Definition newEntry (FileModeToType : Z -> EntryType)
    (parentDir : string) (fi : FileInfo) : Entry :=
  let e := {| EName := Name fi;
              EMode := int16 (Perm (Mode fi));
              EModTime := ModTime fi;
              EType := FileModeToType (Mode fi);
              ESize := 0;
              EOpen := openFileFunc parentDir fi |} in
  if EntryType_eqb (EType e) EntryTypeFile
  then {| EName := EName e; EMode := EMode e; EModTime := EModTime e;
          EType := EType e; ESize := Size fi; EOpen := EOpen e |}
  else e.

(** [populatePlatformSpecificEntryDetails] is not among the sources; it is
    a parameter that returns the entry as it leaves it, and its error. The
    result is the entry, or the error with a nil entry. *)
Definition entryFromFileSystemInfo (FileModeToType : Z -> EntryType)
    (populate : Entry -> FileInfo -> Entry * option error)
    (parentDir : string) (fi : FileInfo) : Entry + error :=
  match populate (newEntry FileModeToType parentDir fi) fi with
  | (_, Some err) => inr err
  | (e, None) => inl e
  end.

(** The loop of [List] over the entries of the directory. In the [switch],
    the case ["."] is empty and does not fall through: only [".."] is
    skipped. *)
Fixpoint List_loop (FileModeToType : Z -> EntryType)
    (populate : Entry -> FileInfo -> Entry * option error)
    (path : string) (entries : list FileInfo) (listing : Listing)
  : Listing * option error :=
  match entries with
  | [] => (listing, None)
  | fi :: rest =>
      if String.eqb (Name fi) ".."
      then List_loop FileModeToType populate path rest listing
      else
        match entryFromFileSystemInfo FileModeToType populate path fi with
        | inr err => (listing, Some err)
        | inl e =>
            if EntryType_eqb (EType e) EntryTypeDirectory
            then List_loop FileModeToType populate path rest
                   {| Directories := Directories listing ++ [e];
                      Files := Files listing |}
            else List_loop FileModeToType populate path rest
                   {| Directories := Directories listing;
                      Files := Files listing ++ [e] |}
        end
  end.

(** [filesystemLister.List]; [ReadDir] is [ioutil.ReadDir]. *)
Definition List (ReadDir : string -> list FileInfo + error)
    (FileModeToType : Z -> EntryType)
    (populate : Entry -> FileInfo -> Entry * option error)
    (path : string) : Listing * option error :=
  let listing := {| Directories := []; Files := [] |} in
  match ReadDir path with
  | inr err => (listing, Some err)
  | inl entries => List_loop FileModeToType populate path entries listing
  end.

(** Sample parameters: a mode with the directory bit set is a directory,
    any other a file, and no platform detail is added. *)
Definition sampleFileModeToType (m : Z) : EntryType :=
  if Z.testbit m 31 then EntryTypeDirectory else EntryTypeFile.

Definition samplePopulate (e : Entry) (fi : FileInfo)
  : Entry * option error :=
  (e, None).

(** A [populate] that fails on the entry named ["a.txt"]. *)
Definition failingPopulate (e : Entry) (fi : FileInfo)
  : Entry * option error :=
  if String.eqb (Name fi) "a.txt"
  then (e, Some (ClientError "no details"))
  else (e, None).

Definition sampleEntries : list FileInfo :=
  [ {| Name := "."; Size := 0; Mode := 2147484141; ModTime := 1 |};
    {| Name := ".."; Size := 0; Mode := 2147484141; ModTime := 1 |};
    {| Name := "a.txt"; Size := 7; Mode := 420; ModTime := 2 |};
    {| Name := "sub"; Size := 0; Mode := 2147484141; ModTime := 3 |} ].
End dir.

(** * Package cli: removing vault items (cli/command_vault_ls.go) *)

Module cli.
(** The loop of [removeVaultItem]. [rep.Vault.Remove] is not among the
    sources: it is a parameter, a function on the state [V] of the
    vault. *)
Fixpoint removeVaultItem_loop {V : Type}
    (Remove : V -> string -> V * option error)
    (items : list string) (vault : V) : V * option error :=
  match items with
  | [] => (vault, None)
  | v :: rest =>
      match Remove vault v with
      | (vault', Some err) => (vault', Some err)
      | (vault', None) => removeVaultItem_loop Remove rest vault'
      end
  end.

(** [removeVaultItem]: [vault] is the vault of the repository
    [mustConnectToRepository] returns, [vaultRemoveItems] the items of the
    command line. *)
Definition removeVaultItem {V : Type}
    (Remove : V -> string -> V * option error)
    (vaultRemoveItems : list string) (vault : V) : V * option error :=
  removeVaultItem_loop Remove vaultRemoveItems vault.

End cli.

(** * Package blob: block storage in a GCS bucket

    The third file of gcs_pit.go, an earlier storage over the JSON API
    client ([gcsclient "google.golang.org/api/storage/v1"]). The object
    service is a parameter: what it answers to each call. A method returns
    its results and the calls it has made, in order. *)

Module gcsblock.
(** What the code reads and writes of a [url.URL]; [Path] and [RawQuery]
    stand for the fields it leaves at their zero value. *)
Record URL : Type := mkURL {
  Scheme : string;
  Host : string;
  Path : string;
  RawQuery : string;
}.

Record GCSStorageOptions : Type := mkOptions {
  BucketName : string;
  Prefix : string;
  TokenCacheFile : string;
  Token : option string;
  ReadOnly : bool;
  IgnoreDefaultCredentials : bool;
}.

(** [gso.ParseURL(u)]: the options as the call leaves them, and its
    error. *)
Definition ParseURL (gso : GCSStorageOptions) (u : URL)
  : GCSStorageOptions * option error :=
  if negb (String.eqb (Scheme u) "gcs")
  then (gso, Some (Errorf "invalid scheme, expected 'file'" []))
  else
    ({| BucketName := Host u; Prefix := Prefix gso;
        TokenCacheFile := TokenCacheFile gso; Token := Token gso;
        ReadOnly := ReadOnly gso;
        IgnoreDefaultCredentials := IgnoreDefaultCredentials gso |},
     None).

Definition ToURL (gso : GCSStorageOptions) : URL :=
  {| Scheme := "gcs"; Host := BucketName gso; Path := ""; RawQuery := "" |}.

(** An error of the client: a [*googleapi.Error] with its HTTP code, or
    any other error. *)
Inductive apiError : Type :=
| GoogleAPIError (code : Z)
| OtherError (msg : string).

(** The errors the block storage returns. *)
Inductive blockError : Type :=
| ErrBlockNotFound
| UnableToGetBlock (b : string) (cause : apiError)
| UnableToDeleteBlock (b : string) (cause : apiError)
| FromClient (cause : apiError).

(** The calls made to the objects service. *)
Inductive Call : Type :=
| GetCall (bucket name : string)
| DownloadCall (bucket name : string)
| InsertCall (bucket name data : string) (ifGenerationMatch : option Z)
| DeleteCall (bucket name : string)
| ListCall (bucket prefix : string) (pageToken : option string).

Record Object : Type := mkObject {
  Name : string;
  Size : Z;
  TimeCreated : string;
}.

Record Objects : Type := mkObjects {
  Items : list Object;
  NextPageToken : string;
}.

(** What the service answers. A download answers with a body, whose read
    gives the bytes read and possibly an error; a listing that fails leaves
    a nil page. *)
Record objectsService : Type := mkService {
  Get : string -> string -> option apiError;
  Download : string -> string -> (string * option apiError) + apiError;
  Insert : string -> string -> string -> option Z -> option apiError;
  Delete : string -> string -> option apiError;
  List : string -> string -> option string -> option Objects;
}.

Record gcsStorage : Type := mkStorage {
  Options : GCSStorageOptions;
  service : objectsService;
}.

Definition getObjectNameString (gcs : gcsStorage) (b : string) : string :=
  Prefix (Options gcs) +:+ b.

Definition BlockExists (gcs : gcsStorage) (b : string)
  : (bool * option apiError) * list Call :=
  let bucket := BucketName (Options gcs) in
  let name := getObjectNameString gcs b in
  (match Get (service gcs) bucket name with
   | None => (true, None)
   | Some err => (false, Some err)
   end,
   [GetCall bucket name]).

Definition GetBlock (gcs : gcsStorage) (b : string)
  : (string * option blockError) * list Call :=
  let bucket := BucketName (Options gcs) in
  let name := getObjectNameString gcs b in
  (match Download (service gcs) bucket name with
   | inr err =>
       match err with
       | GoogleAPIError code =>
           if code =? 404 then ("", Some ErrBlockNotFound)
           else ("", Some (UnableToGetBlock b err))
       | OtherError _ => ("", Some (UnableToGetBlock b err))
       end
   | inl (body, readErr) =>
       (body, match readErr with
              | None => None
              | Some e => Some (FromClient e)
              end)
   end,
   [DownloadCall bucket name]).

(** [options.Overwrite] is the only field of [PutOptions] read. *)
Definition PutBlock (gcs : gcsStorage) (b data : string) (Overwrite : bool)
  : option apiError * list Call :=
  let bucket := BucketName (Options gcs) in
  let name := getObjectNameString gcs b in
  let ifGenerationMatch := if negb Overwrite then Some 0 else None in
  (Insert (service gcs) bucket name data ifGenerationMatch,
   [InsertCall bucket name data ifGenerationMatch]).

Definition DeleteBlock (gcs : gcsStorage) (b : string)
  : option blockError * list Call :=
  let bucket := BucketName (Options gcs) in
  (match Delete (service gcs) bucket b with
   | Some err => Some (UnableToDeleteBlock b err)
   | None => None
   end,
   [DeleteCall bucket b]).

(** The name of the object a call addresses. *)
Definition objectOf (c : Call) : option string :=
  match c with
  | GetCall _ name | DownloadCall _ name | InsertCall _ name _ _
  | DeleteCall _ name => Some name
  | ListCall _ _ _ => None
  end.

(** ** [ListBlocks] *)

Record BlockMetadata : Type := mkBlockMetadata {
  BlockID : string;
  Length : Z;
  TimeStamp : time.Time;
  Error : option string;
}.

(** [s[n:]]; [None] is the panic when [n] is beyond the end of [s]. *)
Fixpoint sliceFrom (n : nat) (s : string) : option string :=
  match n, s with
  | O, _ => Some s
  | S n', String _ s' => sliceFrom n' s'
  | S _, EmptyString => None
  end.

(** What the goroutine sends for one object. [parse] is
    [time.Parse(time.RFC3339, _)], a parameter: the time, or the message
    of its error. *)
Definition blockMetadataOf (parse : string -> time.Time + string)
    (gcs : gcsStorage) (o : Object) : option BlockMetadata :=
  match parse (TimeCreated o) with
  | inr e =>
      Some {| BlockID := ""; Length := 0; TimeStamp := time.zero;
              Error := Some e |}
  | inl t =>
      match sliceFrom (String.length (Prefix (Options gcs))) (Name o) with
      | None => None
      | Some id =>
          Some {| BlockID := id; Length := Size o; TimeStamp := t;
                  Error := None |}
      end
  end.

(** The [range] over the objects of one page: what is sent, and whether
    the loop came to its end ([false]: a slice has panicked). *)
Fixpoint sendItems (parse : string -> time.Time + string)
    (gcs : gcsStorage) (items : list Object) : list BlockMetadata * bool :=
  match items with
  | [] => ([], true)
  | o :: rest =>
      match blockMetadataOf parse gcs o with
      | None => ([], false)
      | Some m =>
          let '(ms, ended) := sendItems parse gcs rest in
          (m :: ms, ended)
      end
  end.

(** How far the goroutine of [ListBlocks] has got: it has closed the
    channel, it has panicked, or it is still running. Each carries what
    has been sent on the channel and the listing calls made. *)
Inductive progress : Type :=
| Closed (sent : list BlockMetadata) (calls : list Call)
| Panicked (sent : list BlockMetadata) (calls : list Call)
| Running (sent : list BlockMetadata) (calls : list Call).

Definition callsOf (p : progress) : list Call :=
  match p with
  | Closed _ calls | Panicked _ calls | Running _ calls => calls
  end.

Definition isClosed (p : progress) : bool :=
  match p with
  | Closed _ _ => true
  | Panicked _ _ | Running _ _ => false
  end.

Definition sentOf (p : progress) : list BlockMetadata :=
  match p with
  | Closed sent _ | Panicked sent _ | Running sent _ => sent
  end.

(** The [for] loop of the goroutine, [fuel] pages long at most. The
    request for a next page carries [ps], the prefix, as its page token:
    the source passes [ps] to [PageToken], not [page.NextPageToken]. *)
Fixpoint ListBlocks_loop (parse : string -> time.Time + string)
    (gcs : gcsStorage) (ps : string) (fuel : nat) (page : option Objects)
    (sent : list BlockMetadata) (calls : list Call) : progress :=
  match fuel with
  | O => Running sent calls
  | S fuel' =>
      match page with
      | None => Closed sent calls
      | Some p =>
          match sendItems parse gcs (Items p) with
          | (ms, false) => Panicked (sent ++ ms) calls
          | (ms, true) =>
              if negb (String.eqb (NextPageToken p) "")
              then
                let bucket := BucketName (Options gcs) in
                ListBlocks_loop parse gcs ps fuel'
                  (List (service gcs) bucket ps (Some ps))
                  (sent ++ ms)
                  (calls ++ [ListCall bucket ps (Some ps)])
              else Closed (sent ++ ms) calls
          end
      end
  end.

(** The goroutine of [ListBlocks], followed for [fuel] pages. A receiver
    that keeps receiving is assumed, so that no send blocks for ever. *)
Definition ListBlocks (parse : string -> time.Time + string)
    (gcs : gcsStorage) (prefix : string) (fuel : nat) : progress :=
  let ps := getObjectNameString gcs prefix in
  let bucket := BucketName (Options gcs) in
  ListBlocks_loop parse gcs ps fuel
    (List (service gcs) bucket ps None) []
    [ListCall bucket ps None].

(** ** Samples *)

Definition sampleOptions : GCSStorageOptions :=
  {| BucketName := "bucket"; Prefix := "p/"; TokenCacheFile := "";
     Token := None; ReadOnly := false; IgnoreDefaultCredentials := false |}.

Definition sampleParse (s : string) : time.Time + string :=
  if String.eqb s "" then inr "cannot parse" else inl 7.

Definition sampleObject (name : string) : Object :=
  {| Name := name; Size := 3; TimeCreated := "2016-01-01T00:00:00Z" |}.

(** A service whose listings are always one page of two objects, with the
    given next page token. *)
Definition sampleService (token : string) : objectsService :=
  {| Get := fun _ _ => None;
     Download := fun _ _ => inr (GoogleAPIError 404);
     Insert := fun _ _ _ _ => None;
     Delete := fun _ _ => None;
     List := fun _ _ _ =>
       Some {| Items := [sampleObject "p/ab1"; sampleObject "p/ab2"];
               NextPageToken := token |} |}.

Definition sampleStorage (token : string) : gcsStorage :=
  {| Options := sampleOptions; service := sampleService token |}.
End gcsblock.
(** * Properties *)

(** ** The resolver *)

Lemma After_spec (t u : time.Time) : time.After t u = true <-> u < t.
Proof. unfold time.After. apply Z.ltb_lt. Qed.

Lemma After_false (t u : time.Time) : time.After t u = false <-> t <= u.
Proof. unfold time.After. rewrite Z.ltb_ge. reflexivity. Qed.

Lemma Before_spec (t u : time.Time) : time.Before t u = true <-> t < u.
Proof. unfold time.Before. apply Z.ltb_lt. Qed.

Lemma IsZero_spec (t : time.Time) : time.IsZero t = true <-> t = time.zero.
Proof. unfold time.IsZero, time.zero. apply Z.eqb_eq. Qed.

(** [getOlderThan] keeps a prefix of its argument. *)
Lemma getOlderThan_prefix vs t : getOlderThan vs t `prefix_of` vs.
Proof.
  induction vs as [|v vs IH]; simpl.
  - reflexivity.
  - destruct (time.After (Timestamp v) t).
    + apply prefix_nil.
    + by apply prefix_cons.
Qed.

(** Nothing it keeps is after [t]. *)
Lemma getOlderThan_Forall vs t :
  Forall (fun v => Timestamp v <= t) (getOlderThan vs t).
Proof.
  induction vs as [|v vs IH]; simpl; [constructor|].
  destruct (time.After (Timestamp v) t) eqn:E; [constructor|].
  constructor; [by apply After_false | exact IH].
Qed.

(** A sequence with nothing after [t] is kept whole. *)
Lemma getOlderThan_all vs t :
  Forall (fun v => Timestamp v <= t) vs -> getOlderThan vs t = vs.
Proof.
  induction 1 as [|v vs Hv _ IH]; simpl; [done|].
  apply After_false in Hv. by rewrite Hv, IH.
Qed.

(** Once an entry is after [t], an ascending sequence has nothing at or
    before [t] further on. *)
Lemma ascending_filter_nil v vs t :
  ascending (v :: vs) -> t < Timestamp v ->
  filter (fun w => Timestamp w <= t) (v :: vs) = [].
Proof.
  intros Hs Hv. unfold ascending in Hs.
  apply Sorted_StronglySorted in Hs; [|intros x y z; lia].
  apply StronglySorted_inv in Hs as [_ Hall].
  rewrite filter_cons_False by lia.
  induction Hall as [|w ws Hw _ IH]; [done|].
  rewrite filter_cons_False by lia. exact IH.
Qed.

(** On an ascending sequence [getOlderThan] keeps exactly the entries at
    or before [t]. *)
Lemma getOlderThan_ascending vs t :
  ascending vs ->
  getOlderThan vs t = filter (fun v => Timestamp v <= t) vs.
Proof.
  induction vs as [|v vs IH]; intros Hs; simpl; [done|].
  destruct (time.After (Timestamp v) t) eqn:E.
  - apply After_spec in E. symmetry. by apply ascending_filter_nil.
  - apply After_false in E. rewrite filter_cons_True by done.
    f_equal. apply IH. unfold ascending in *. by inversion Hs.
Qed.

(** On a descending sequence it keeps nothing when the first entry is
    after [t], and everything otherwise. *)
Lemma getOlderThan_descending vs t :
  descending vs ->
  getOlderThan vs t =
    match vs with
    | [] => []
    | v :: _ => if time.After (Timestamp v) t then [] else vs
    end.
Proof.
  destruct vs as [|v vs]; intros Hs; [done|].
  destruct (time.After (Timestamp v) t) eqn:E; [by simpl; rewrite E|].
  apply getOlderThan_all. apply After_false in E.
  unfold descending in Hs.
  apply Sorted_StronglySorted in Hs; [|intros x y z; lia].
  apply StronglySorted_inv in Hs as [_ Hall].
  constructor; [done|].
  eapply Forall_impl; [exact Hall|]. simpl. intros; lia.
Qed.

Lemma ascending_strongly vs :
  ascending vs ->
  StronglySorted (fun a b => Timestamp a <= Timestamp b) vs.
Proof. apply Sorted_StronglySorted. intros x y z; lia. Qed.

(** In an ascending sequence, the last record at or before [T] has the
    maximum timestamp among the records at or before [T]. *)
Lemma ascending_last_filter_max vs T v :
  ascending vs ->
  last (filter (fun v => Timestamp v <= T) vs) = Some v ->
  forall w, w ∈ vs -> Timestamp w <= T -> Timestamp w <= Timestamp v.
Proof.
  intros Hs. apply ascending_strongly in Hs. revert v.
  induction Hs as [|a vs Hs IH Hall]; intros v Hlast w Hw HwT.
  - by apply elem_of_nil in Hw.
  - assert (Hv : v ∈ filter (fun v => Timestamp v <= T) (a :: vs))
      by (by apply last_Some_elem_of).
    apply list_elem_of_filter in Hv as [_ Hv].
    apply elem_of_cons in Hw as [->|Hw].
    + apply elem_of_cons in Hv as [->|Hv]; [lia|].
      rewrite Forall_forall in Hall. by apply Hall.
    + destruct (decide (Timestamp a <= T)) as [Ha|Ha].
      * rewrite filter_cons_True in Hlast by done.
        rewrite last_cons in Hlast.
        destruct (last (filter _ vs)) as [v'|] eqn:E.
        -- inversion Hlast; subst. by apply (IH v).
        -- apply last_None in E.
           assert (Hwf : w ∈ filter (fun v => Timestamp v <= T) vs)
             by (by apply list_elem_of_filter).
           rewrite E in Hwf. by apply elem_of_nil in Hwf.
      * rewrite filter_cons_False in Hlast by done. by apply (IH v).
Qed.

(** What the resolver computes when the versions come oldest first: the
    last of the records at or before [T], which is a record with the
    maximum timestamp at or before [T]; [found] tells whether it is a
    delete marker; and no record at or before [T] gives [found = false]. *)
Lemma newestAtUnlessDeleted_ascending vs T :
  ascending vs ->
  match last (filter (fun v => Timestamp v <= T) vs) with
  | Some v =>
      newestAtOrBefore vs T v /\
      newestAtUnlessDeleted vs T = (v, negb (IsDeleteMarker v))
  | None =>
      (forall w, w ∈ vs -> T < Timestamp w) /\
      newestAtUnlessDeleted vs T = (zeroVersionMetadata, false)
  end.
Proof.
  intros Hs. unfold newestAtUnlessDeleted.
  rewrite (getOlderThan_ascending _ _ Hs).
  destruct (last _) as [v|] eqn:E.
  - split; [|done].
    assert (Hin : v ∈ filter (fun v => Timestamp v <= T) vs)
      by (by apply last_Some_elem_of).
    apply list_elem_of_filter in Hin as [HvT Hin].
    split; [done|]. split; [done|].
    by apply ascending_last_filter_max.
  - split; [|done].
    apply last_None in E. intros w Hw.
    destruct (Z_lt_le_dec T (Timestamp w)) as [|Hle]; [done|].
    assert (Hwf : w ∈ filter (fun v => Timestamp v <= T) vs)
      by (by apply list_elem_of_filter).
    rewrite E in Hwf. by apply elem_of_nil in Hwf.
Qed.

(** What the resolver computes when the versions come newest first: the
    oldest record of all, unless the newest is after [T], in which case it
    finds nothing. *)
Lemma newestAtUnlessDeleted_descending vs T :
  descending vs ->
  newestAtUnlessDeleted vs T =
    match head vs, last vs with
    | Some newest, Some oldest =>
        if time.After (Timestamp newest) T
        then (zeroVersionMetadata, false)
        else (oldest, negb (IsDeleteMarker oldest))
    | _, _ => (zeroVersionMetadata, false)
    end.
Proof.
  intros Hs. unfold newestAtUnlessDeleted.
  rewrite (getOlderThan_descending _ _ Hs).
  destruct vs as [|v vs]; [done|]. cbn [head].
  destruct (last (v :: vs)) as [o|] eqn:E.
  - destruct (time.After (Timestamp v) T); [done|]. by rewrite E.
  - by apply last_None in E.
Qed.

(** C1. The resolver on a sequence sorted in descending timestamp order:
    the claim asks for the record with the maximum timestamp at or before
    the horizon. For the history (20, 10) and horizon 25 that record is the
    one of 20, and the resolver returns the one of 10; for the history
    (delete at 30, 20, 10) and horizon 25 it is again the live record of
    20, and the resolver finds nothing. *)
Theorem resolver_on_descending_history :
  let v20 := Samples.version 20 false "2" in
  let v10 := Samples.version 10 false "1" in
  (descending [v20; v10] /\
   newestAtOrBefore [v20; v10] 25 v20 /\
   IsDeleteMarker v20 = false /\
   newestAtUnlessDeleted [v20; v10] 25 = (v10, true)) /\
  (descending Samples.historyDescending /\
   newestAtOrBefore Samples.historyDescending 25 v20 /\
   newestAtUnlessDeleted Samples.historyDescending 25
     = (zeroVersionMetadata, false)).
Proof.
  cbv zeta. unfold Samples.historyDescending.
  assert (Hmax : forall l, Samples.version 20 false "2" ∈ l ->
            (forall w, w ∈ l -> Timestamp w <= 25 -> Timestamp w <= 20) ->
            newestAtOrBefore l 25 (Samples.version 20 false "2")).
  { intros l Hin Hle. split; [done|]. split; [cbn; lia|]. exact Hle. }
  split; [split; [|split; [|split]]|split; [|split]].
  - repeat constructor; cbn; lia.
  - apply Hmax; [apply list_elem_of_here|].
    intros w Hw. rewrite !elem_of_cons, elem_of_nil in Hw.
    destruct Hw as [->|[->|[]]]; cbn; lia.
  - reflexivity.
  - reflexivity.
  - repeat constructor; cbn; lia.
  - apply Hmax; [apply list_elem_of_further, list_elem_of_here|].
    intros w Hw. rewrite !elem_of_cons, elem_of_nil in Hw.
    destruct Hw as [->|[->|[->|[]]]]; cbn; lia.
  - reflexivity.
Qed.

(** ** Scenario A through [GetMetadata] *)

(** The records the lister builds from the newest-first listing, seen
    from horizon 35: a delete marker of 30, then live records of 20 and
    10. *)
Lemma listingDescending_records :
  map (fun v => (Timestamp v, IsDeleteMarker v))
      (map (getVersionMetadata (Samples.viewAt 35 [] None) "x")
           Samples.listingDescending)
  = [(30, true); (20, false); (10, false)].
Proof. reflexivity. Qed.

(** C2. Scenario A with the history listed newest first (delete at 30,
    overwrite at 20, create at 10): the claim asks for the version of 20 at
    horizon 25 and for NotFound at horizons 35 and 5. [GetMetadata] returns
    the version of 10 at horizon 25 and again at horizon 35, both without
    an error; only horizon 5 gives NotFound. *)
Theorem GetMetadata_scenario_A_descending :
  GetMetadata (Samples.viewAt 25 Samples.listingDescending None) "x"
    = ({| blob.BlobID := ""; blob.Length := 1; blob.Timestamp := 10 |},
       None) /\
  GetMetadata (Samples.viewAt 35 Samples.listingDescending None) "x"
    = ({| blob.BlobID := ""; blob.Length := 1; blob.Timestamp := 10 |},
       None) /\
  GetMetadata (Samples.viewAt 5 Samples.listingDescending None) "x"
    = (blob.zeroMetadata, Some ErrBlobNotFound).
Proof. repeat split; reflexivity. Qed.

(** The same history listed oldest first gives the three answers of the
    scenario. *)
Lemma GetMetadata_scenario_A_ascending :
  GetMetadata (Samples.viewAt 25 Samples.listingAscending None) "x"
    = ({| blob.BlobID := ""; blob.Length := 1; blob.Timestamp := 20 |},
       None) /\
  GetMetadata (Samples.viewAt 35 Samples.listingAscending None) "x"
    = (blob.zeroMetadata, Some ErrBlobNotFound) /\
  GetMetadata (Samples.viewAt 5 Samples.listingAscending None) "x"
    = (blob.zeroMetadata, Some ErrBlobNotFound).
Proof. repeat split; reflexivity. Qed.

(** ** Delete markers *)

(** C9. The record built from a listing entry is a delete marker exactly
    when the entry's deletion time is not the zero time and either no
    point-in-time is configured or the deletion time is strictly before
    it; in particular an entry deleted at or after the configured
    point-in-time is not a delete marker. *)
Theorem getVersionMetadata_IsDeleteMarker gcs prefix oi :
  (IsDeleteMarker (getVersionMetadata gcs prefix oi) = true <->
     storage.Deleted oi <> time.zero /\
     (PointInTime (base gcs) = None \/
      exists pit, PointInTime (base gcs) = Some pit /\
                  storage.Deleted oi < pit)) /\
  (forall pit, PointInTime (base gcs) = Some pit ->
               pit <= storage.Deleted oi ->
               IsDeleteMarker (getVersionMetadata gcs prefix oi) = false).
Proof.
  unfold getVersionMetadata; cbn [IsDeleteMarker].
  split.
  - rewrite andb_true_iff, negb_true_iff.
    rewrite <- not_true_iff_false, IsZero_spec.
    destruct (PointInTime (base gcs)) as [pit|].
    + rewrite Before_spec. split.
      * intros [Hz Hb]. split; [done|]. right. by exists pit.
      * intros [Hz [Hn|(p & Hp & Hlt)]]; [done|]. by inversion Hp; subst.
    + split; [intros [Hz _]; split; [done|by left] | by intros [Hz _]].
  - intros pit -> Hle. apply andb_false_iff. right.
    unfold time.Before. apply Z.ltb_ge. exact Hle.
Qed.

Lemma getVersionMetadata_IsDeleteMarker_witness :
  IsDeleteMarker
    (getVersionMetadata (Samples.viewAt 25 [] None) ""
       (Samples.object "x" 20 25 2)) = false.
Proof.
  apply (proj2 (getVersionMetadata_IsDeleteMarker
                  (Samples.viewAt 25 [] None) ""
                  (Samples.object "x" 20 25 2)) 25).
  - reflexivity.
  - cbn. lia.
Defined.

(** ** Construction *)

(** C5. [maybePointInTimeStore] returns the live storage itself when the
    options request no point-in-time (nil or the zero time). When a
    non-zero one is requested and the bucket's attributes say versioning
    is disabled, it returns an error whose arguments name the bucket, and
    no storage. When they say versioning is enabled, it returns the
    point-in-time storage for the horizon it was passed, inside the
    read-only wrapper. *)
Theorem maybePointInTimeStore_cases gcs pointInTime :
  ((PointInTime gcs = None \/ PointInTime gcs = Some time.zero) ->
   maybePointInTimeStore gcs pointInTime = Some (Some (Live gcs), None)) /\
  (forall pit t attrs,
     PointInTime gcs = Some pit -> pit <> time.zero ->
     pointInTime = Some t ->
     storage.Attrs (bucket gcs) = inl attrs ->
     (storage.VersioningEnabled attrs = false ->
      exists format args,
        maybePointInTimeStore gcs pointInTime
          = Some (None, Some (Errorf format args)) /\
        AStr (BucketName gcs) ∈ args) /\
     (storage.VersioningEnabled attrs = true ->
      maybePointInTimeStore gcs pointInTime
        = Some (Some (ReadonlyWrapper
                        (PointInTimeStorage
                           {| base := gcs; pointInTime := t |})),
                None))).
Proof.
  unfold maybePointInTimeStore. split.
  - intros [->| ->]; reflexivity.
  - intros pit t attrs -> Hnz -> ->.
    assert (time.IsZero pit = false) as ->.
    { apply not_true_iff_false. by rewrite IsZero_spec. }
    split; intros ->; cbn [negb].
    + eexists _, _. split; [reflexivity|]. apply list_elem_of_here.
    + reflexivity.
Qed.

Lemma maybePointInTimeStore_cases_witness :
  maybePointInTimeStore (Samples.storageOf None true) None
    = Some (Some (Live (Samples.storageOf None true)), None) /\
  (exists format args,
     maybePointInTimeStore (Samples.storageOf (Some 25) false) (Some 25)
       = Some (None, Some (Errorf format args)) /\
     AStr "bkt" ∈ args) /\
  maybePointInTimeStore (Samples.storageOf (Some 25) true) (Some 25)
    = Some (Some (ReadonlyWrapper
                    (PointInTimeStorage
                       {| base := Samples.storageOf (Some 25) true;
                          pointInTime := 25 |})),
            None).
Proof.
  split; [|split].
  - apply (proj1 (maybePointInTimeStore_cases
                    (Samples.storageOf None true) None)).
    left. reflexivity.
  - apply (proj1 (proj2 (maybePointInTimeStore_cases
                           (Samples.storageOf (Some 25) false) (Some 25))
                    25 25 {| storage.VersioningEnabled := false |}
                    eq_refl ltac:(discriminate) eq_refl eq_refl)).
    reflexivity.
  - apply (proj2 (proj2 (maybePointInTimeStore_cases
                           (Samples.storageOf (Some 25) true) (Some 25))
                    25 25 {| storage.VersioningEnabled := true |}
                    eq_refl ltac:(discriminate) eq_refl eq_refl)).
    reflexivity.
Defined.

(** The two outcomes the three cases leave out: a failure to read the
    bucket's attributes is returned, wrapped with the bucket's name, and a
    nil [pointInTime] argument with a point-in-time requested in the
    options makes the function panic. *)
Lemma maybePointInTimeStore_other_outcomes gcs pit :
  PointInTime gcs = Some pit -> pit <> time.zero ->
  maybePointInTimeStore gcs None = None /\
  (forall t err,
     storage.Attrs (bucket gcs) = inr err ->
     maybePointInTimeStore gcs (Some t)
     = Some (None,
             Some (Wrapf err
                     "could not get determine if bucket '%s' supports versioning"
                     [AStr (BucketName gcs)]))).
Proof.
  intros Hp Hnz. unfold maybePointInTimeStore. rewrite Hp.
  assert (time.IsZero pit = false) as ->.
  { apply not_true_iff_false. by rewrite IsZero_spec. }
  split; [done|]. by intros t err ->.
Qed.

(** ** Empty enumerations *)

(** C10. When the enumeration for the prefix yields no object and ends,
    [ListBlobs] returns nil without invoking its callback, while
    [getBlobVersions] on the same enumeration fails with NotFound, also
    without invoking its callback. *)
Theorem ListBlobs_empty_enumeration {St St' : Type}
    (gcs : gcsPointInTimeStorage) (prefix : blob.ID)
    (cb : St -> blob.Metadata -> St * option error) (s : St)
    (callback : versionMetadataCallback St') (s' : St') :
  listingFor gcs prefix = {| storage.items := []; storage.final := None |} ->
  ListBlobs gcs prefix (traced cb) ([], s) = (([], s), None) /\
  getBlobVersions gcs prefix (traced callback) ([], s')
    = (([], s'), Some ErrBlobNotFound).
Proof.
  unfold listingFor. intros H.
  unfold ListBlobs, listBlobVersions, getBlobVersions, list_.
  rewrite H. split; reflexivity.
Qed.

Lemma ListBlobs_empty_enumeration_witness :
  ListBlobs (Samples.viewAt 25 [] None) "a" (traced Samples.accept) ([], tt)
    = (([], tt), None) /\
  getBlobVersions (Samples.viewAt 25 [] None) "a"
    (traced Samples.acceptVersion) ([], tt)
    = (([], tt), Some ErrBlobNotFound).
Proof.
  apply (ListBlobs_empty_enumeration (Samples.viewAt 25 [] None) "a"
           Samples.accept tt Samples.acceptVersion tt).
  reflexivity.
Defined.

(** ** [ListBlobs] *)

(** When nothing in [vs] is after [T], the resolver answers with the last
    entry of [vs]. *)
Lemma newestAtUnlessDeleted_all vs T :
  Forall (fun v => Timestamp v <= T) vs ->
  newestAtUnlessDeleted vs T =
    match last vs with
    | None => (zeroVersionMetadata, false)
    | Some v => (v, negb (IsDeleteMarker v))
    end.
Proof.
  intros H. unfold newestAtUnlessDeleted. by rewrite getOlderThan_all.
Qed.

(** The resolver finds nothing in an empty sequence. *)
Lemma newestAtUnlessDeleted_nil T :
  newestAtUnlessDeleted [] T = (zeroVersionMetadata, false).
Proof. reflexivity. Qed.

(** What it finds is an entry of the sequence. *)
Lemma newestAtUnlessDeleted_found vs T v :
  newestAtUnlessDeleted vs T = (v, true) -> v ∈ vs.
Proof.
  unfold newestAtUnlessDeleted.
  destruct (last (getOlderThan vs T)) as [w|] eqn:E; [|done].
  intros [= -> _]. apply last_Some_elem_of in E.
  destruct (getOlderThan_prefix vs T) as [k Hk].
  rewrite Hk. apply elem_of_app. by left.
Qed.

(** The first record of a listing: whatever its blob ID, the closure of
    [ListBlobs] ends with that ID as [previousID] and the record alone in
    [vs], and does not invoke [cb]. *)
Lemma ListBlobs_callback_first {St : Type} gcs
    (cb : St -> blob.Metadata -> St * option error) (s : St) vm :
  ListBlobs_callback gcs cb ("", [], s) vm = ((BlobID vm, [vm], s), None).
Proof.
  unfold ListBlobs_callback.
  destruct (String.eqb (BlobID vm) "") eqn:E; cbn [negb].
  - apply String.eqb_eq in E. by rewrite E.
  - by rewrite newestAtUnlessDeleted_nil.
Qed.

(** A record of the blob being accumulated is appended. *)
Lemma ListBlobs_callback_same {St : Type} gcs
    (cb : St -> blob.Metadata -> St * option error) (s : St) vs vm :
  ListBlobs_callback gcs cb (BlobID vm, vs, s) vm
    = ((BlobID vm, vs ++ [vm], s), None).
Proof. unfold ListBlobs_callback. by rewrite String.eqb_refl. Qed.

(** Every callback argument is the metadata of a record of the stream, and
    the arguments come in stream order: the sequence of arguments is a
    subsequence of the stream. The loop is entered with [vs] and the
    arguments [log] made so far drawn from an earlier part [before] of the
    stream. *)
Lemma ListBlobs_loop_in_order {St : Type} gcs query
    (cb : St -> blob.Metadata -> St * option error) its fin :
  forall previousID vs log s before,
    map fst log `sublist_of` map Metadata before ->
    forall previousID' vs' log' s' r,
      list_loop gcs query false (ListBlobs_callback gcs (traced cb))
        its fin (previousID, vs, (log, s))
        = ((previousID', vs', (log', s')), r) ->
      match r with
      | None =>
          exists before',
            map fst log' `sublist_of` map Metadata before' /\
            before' ++ vs' `sublist_of`
              before ++ vs
                ++ map (getVersionMetadata gcs (storage.Prefix query)) its
      | Some _ =>
          map fst log' `sublist_of`
            map Metadata
              (before ++ vs
                 ++ map (getVersionMetadata gcs (storage.Prefix query)) its)
      end.
Proof.
  induction its as [|oi its IH];
    intros previousID vs log s before Hlog previousID' vs' log' s' r Hrun.
  - cbn in Hrun. destruct fin as [err|]; inversion Hrun; subst.
    + rewrite map_app. by apply sublist_inserts_r.
    + exists before. split; [done|]. by rewrite app_nil_r.
  - cbn [list_loop andb] in Hrun. cbn [map].
    set (vm := getVersionMetadata gcs (storage.Prefix query) oi) in *.
    unfold ListBlobs_callback in Hrun at 1.
    destruct (negb (String.eqb (BlobID vm) previousID)).
    + destruct (newestAtUnlessDeleted vs (pointInTime gcs))
        as [v found] eqn:Hres.
      destruct found.
      * apply newestAtUnlessDeleted_found in Hres.
        assert (Hlog' : map fst (log ++ [(Metadata v, snd (cb s (Metadata v)))])
                          `sublist_of` map Metadata (before ++ vs)).
        { rewrite !map_app. apply sublist_app; [done|].
          cbn. apply list_elem_of_split in Hres as (l1 & l2 & ->).
          rewrite map_app. apply sublist_inserts_l. cbn.
          apply sublist_skip, sublist_nil_l. }
        unfold traced in Hrun at 1.
        destruct (cb s (Metadata v)) as [s1 [err|]] eqn:Hcb;
          cbn [snd] in Hlog'.
        -- inversion Hrun; subst.
           rewrite app_assoc, (map_app Metadata). by apply sublist_inserts_r.
        -- specialize (IH _ _ _ _ (before ++ vs) Hlog' _ _ _ _ _ Hrun).
           destruct r.
           ++ rewrite <- !app_assoc in IH. exact IH.
           ++ destruct IH as (before' & H1 & H2). exists before'.
              split; [done|]. by rewrite <- !app_assoc in H2.
      * assert (Hlog' : map fst log `sublist_of` map Metadata (before ++ vs)).
        { rewrite map_app. by apply sublist_inserts_r. }
        specialize (IH _ _ _ _ (before ++ vs) Hlog' _ _ _ _ _ Hrun).
        destruct r.
        -- rewrite <- !app_assoc in IH. exact IH.
        -- destruct IH as (before' & H1 & H2). exists before'.
           split; [done|]. by rewrite <- !app_assoc in H2.
    + specialize (IH _ _ _ _ before Hlog _ _ _ _ _ Hrun).
      destruct r.
      * rewrite <- !app_assoc in IH. exact IH.
      * destruct IH as (before' & H1 & H2). exists before'.
        split; [done|]. by rewrite <- !app_assoc in H2.
Qed.

Lemma sublist_map {A B : Type} (f : A -> B) (l k : list A) :
  l `sublist_of` k -> map f l `sublist_of` map f k.
Proof.
  induction 1; cbn; [constructor | by constructor | by constructor].
Qed.

(** The arguments [ListBlobs] gives its callback, in order, are a
    subsequence of the metadata of the records the enumeration produces:
    blobs are reported in the order the stream brings them. *)
Lemma ListBlobs_in_order {St : Type} gcs prefix
    (cb : St -> blob.Metadata -> St * option error) s log' s' r :
  ListBlobs gcs prefix (traced cb) ([], s) = ((log', s'), r) ->
  map fst log' `sublist_of`
    map Metadata
      (map (getVersionMetadata gcs (getObjectNameString (base gcs) prefix))
           (storage.items (listingFor gcs prefix))).
Proof.
  unfold ListBlobs, listBlobVersions, list_, listingFor.
  set (query := {| storage.Prefix := getObjectNameString (base gcs) prefix;
                   storage.Versions := true |}).
  destruct (list_loop _ _ _ _ _ _ _) as [[[p vs] [log1 s1]] r1] eqn:Hrun.
  apply (ListBlobs_loop_in_order gcs query cb _ _ _ _ _ _ []) in Hrun;
    [|apply sublist_nil_l].
  cbn [app storage.Prefix query] in Hrun.
  destruct r1 as [err|].
  - intros [= <- <- <-]. exact Hrun.
  - destruct Hrun as (before' & H1 & H2).
    destruct (newestAtUnlessDeleted vs (pointInTime gcs))
      as [v found] eqn:Hres.
    destruct found.
    + apply newestAtUnlessDeleted_found in Hres.
      unfold traced. destruct (cb s1 (Metadata v)) as [s2 r2].
      intros [= <- <- <-].
      etransitivity; [|apply sublist_map, H2].
      rewrite !map_app. apply sublist_app; [done|].
      cbn. apply list_elem_of_split in Hres as (l1 & l2 & ->).
      rewrite map_app. apply sublist_inserts_l. cbn.
      apply sublist_skip, sublist_nil_l.
    + intros [= <- <- <-].
      etransitivity; [exact H1|]. etransitivity; [|apply sublist_map, H2].
      rewrite map_app. by apply sublist_inserts_r.
Qed.

(** A record of another blob: the accumulated sequence is resolved, its
    winner reported, and the accumulation starts again. *)
Lemma ListBlobs_callback_next {St : Type} gcs
    (cb : St -> blob.Metadata -> St * option error) (s : St)
    previousID vs vm :
  BlobID vm <> previousID ->
  ListBlobs_callback gcs cb (previousID, vs, s) vm =
    match newestAtUnlessDeleted vs (pointInTime gcs) with
    | (v, true) =>
        match cb s (Metadata v) with
        | (s', Some err) => ((previousID, vs, s'), Some err)
        | (s', None) => ((BlobID vm, [vm], s'), None)
        end
    | (_, false) => ((BlobID vm, [vm], s), None)
    end.
Proof.
  intros Hne. unfold ListBlobs_callback.
  apply String.eqb_neq in Hne. by rewrite Hne.
Qed.

(** The run of [ListBlobs] on the listing of scenario C. *)
Lemma scenario_C_run_first_blob_first {St : Type} gcs prefix
    (cb : St -> blob.Metadata -> St * option error) (s : St) o1 o2 o3 :
  let q := getObjectNameString (base gcs) prefix in
  let v1 := getVersionMetadata gcs q o1 in
  let v2 := getVersionMetadata gcs q o2 in
  let v3 := getVersionMetadata gcs q o3 in
  listingFor gcs prefix
    = {| storage.items := [o1; o2; o3]; storage.final := None |} ->
  storage.Name o2 = storage.Name o3 ->
  BlobID v1 <> BlobID v2 ->
  Timestamp v1 <= pointInTime gcs ->
  Timestamp v2 <= pointInTime gcs ->
  Timestamp v3 <= pointInTime gcs ->
  IsDeleteMarker v1 = false ->
  IsDeleteMarker v3 = true ->
  ListBlobs gcs prefix (traced cb) ([], s) =
    match cb s (Metadata v1) with
    | (s', Some err) =>
        (([(Metadata v1, Some err)], s'),
         Some (Wrapf (Wrapf err "callback failed for %q"
                        [AStr (storage.Name o2)])
                 "could not list blob versions at time %s"
                 [ATime (pointInTime gcs)]))
    | (s', None) => (([(Metadata v1, None)], s'), None)
    end.
Proof.
  intros q v1 v2 v3 Hlist Hname Hne H1 H2 H3 Hlive Hdel.
  assert (Hid : BlobID v3 = BlobID v2).
  { unfold v3, v2, BlobID, getVersionMetadata. cbn. by rewrite Hname. }
  unfold ListBlobs, listBlobVersions, list_.
  unfold listingFor in Hlist. rewrite Hlist.
  cbn [storage.items storage.final list_loop andb storage.Prefix].
  fold q. fold v1 v2 v3.
  rewrite ListBlobs_callback_first.
  rewrite ListBlobs_callback_next by congruence.
  rewrite (newestAtUnlessDeleted_all [v1]) by (by repeat constructor).
  cbn [last]. rewrite Hlive. cbn [negb].
  unfold traced at 1.
  destruct (cb s (Metadata v1)) as [s1 [err|]] eqn:Hcb; [done|].
  cbn [app]. rewrite <- Hid.
  rewrite ListBlobs_callback_same. cbn [app].
  rewrite (newestAtUnlessDeleted_all [v2; v3]) by (by repeat constructor).
  cbn [last]. rewrite Hdel. cbn [negb]. done.
Qed.

(** The run of [ListBlobs] when the second blob is listed before the
    first: the callback is invoked after the enumeration, and its answer
    is the answer of the call. *)
Lemma scenario_C_run_second_blob_first {St : Type} gcs prefix
    (cb : St -> blob.Metadata -> St * option error) (s : St) o1 o2 o3 :
  let q := getObjectNameString (base gcs) prefix in
  let v1 := getVersionMetadata gcs q o1 in
  let v2 := getVersionMetadata gcs q o2 in
  let v3 := getVersionMetadata gcs q o3 in
  listingFor gcs prefix
    = {| storage.items := [o2; o3; o1]; storage.final := None |} ->
  storage.Name o2 = storage.Name o3 ->
  BlobID v1 <> BlobID v2 ->
  Timestamp v1 <= pointInTime gcs ->
  Timestamp v2 <= pointInTime gcs ->
  Timestamp v3 <= pointInTime gcs ->
  IsDeleteMarker v1 = false ->
  IsDeleteMarker v3 = true ->
  ListBlobs gcs prefix (traced cb) ([], s) =
    match cb s (Metadata v1) with
    | (s', r) => (([(Metadata v1, r)], s'), r)
    end.
Proof.
  intros q v1 v2 v3 Hlist Hname Hne H1 H2 H3 Hlive Hdel.
  assert (Hid : BlobID v3 = BlobID v2).
  { unfold v3, v2, BlobID, getVersionMetadata. cbn. by rewrite Hname. }
  unfold ListBlobs, listBlobVersions, list_.
  unfold listingFor in Hlist. rewrite Hlist.
  cbn [storage.items storage.final list_loop andb storage.Prefix].
  fold q. fold v1 v2 v3.
  rewrite ListBlobs_callback_first.
  rewrite <- Hid at 1. rewrite ListBlobs_callback_same. cbn [app].
  rewrite ListBlobs_callback_next by congruence.
  rewrite (newestAtUnlessDeleted_all [v2; v3]) by (by repeat constructor).
  cbn [last]. rewrite Hdel. cbn [negb].
  rewrite (newestAtUnlessDeleted_all [v1]) by (by repeat constructor).
  cbn [last]. rewrite Hlive. cbn [negb].
  unfold traced. by destruct (cb s (Metadata v1)) as [s1 r1].
Qed.

(** Scenario C with the generations of the second blob listed oldest
    first. A listing of three generations: one of a first blob, and two of
    a second blob that follow each other in the listing, the later of them
    a delete marker; none is after the horizon and the first blob's
    generation is live. Whichever blob is listed first, [ListBlobs]
    invokes its callback exactly once, with the metadata of the first
    blob's generation, and returns nil when the callback does. For every
    listing, the callback's arguments follow the order of the stream. *)
Lemma scenario_C_oldest_first {St : Type} gcs prefix
    (cb : St -> blob.Metadata -> St * option error) (s : St) :
  (forall o1 o2 o3,
     let q := getObjectNameString (base gcs) prefix in
     let v1 := getVersionMetadata gcs q o1 in
     let v2 := getVersionMetadata gcs q o2 in
     let v3 := getVersionMetadata gcs q o3 in
     listingFor gcs prefix
       = {| storage.items := [o1; o2; o3]; storage.final := None |} \/
     listingFor gcs prefix
       = {| storage.items := [o2; o3; o1]; storage.final := None |} ->
     storage.Name o2 = storage.Name o3 ->
     BlobID v1 <> BlobID v2 ->
     Timestamp v1 <= pointInTime gcs ->
     Timestamp v2 <= pointInTime gcs ->
     Timestamp v3 <= pointInTime gcs ->
     IsDeleteMarker v1 = false ->
     IsDeleteMarker v3 = true ->
     exists s' r,
       cb s (Metadata v1) = (s', r) /\
       fst (ListBlobs gcs prefix (traced cb) ([], s))
         = ([(Metadata v1, r)], s') /\
       (r = None ->
        snd (ListBlobs gcs prefix (traced cb) ([], s)) = None)) /\
  (forall log' s' r,
     ListBlobs gcs prefix (traced cb) ([], s) = ((log', s'), r) ->
     map fst log' `sublist_of`
       map Metadata
         (map (getVersionMetadata gcs (getObjectNameString (base gcs) prefix))
              (storage.items (listingFor gcs prefix)))).
Proof.
  split; [|apply ListBlobs_in_order].
  intros o1 o2 o3 q v1 v2 v3 [Hlist|Hlist] Hname Hne H1 H2 H3 Hlive Hdel.
  - rewrite (scenario_C_run_first_blob_first gcs prefix cb s o1 o2 o3) by done.
    fold q. fold v1.
    destruct (cb s (Metadata v1)) as [s1 [err|]].
    + exists s1, (Some err). split; [done|]. split; [done|]. discriminate.
    + exists s1, None. done.
  - rewrite (scenario_C_run_second_blob_first gcs prefix cb s o1 o2 o3) by done.
    fold q. fold v1.
    destruct (cb s (Metadata v1)) as [s1 r1]. by exists s1, r1.
Qed.

Lemma scenario_C_oldest_first_example :
  exists s' r,
    Samples.accept tt
      (Metadata (getVersionMetadata (Samples.viewAt 100 Samples.listingC None)
                   "a" (Samples.object "a1" 10 0 1))) = (s', r) /\
    fst (ListBlobs (Samples.viewAt 100 Samples.listingC None) "a"
           (traced Samples.accept) ([], tt))
      = ([(Metadata (getVersionMetadata
                       (Samples.viewAt 100 Samples.listingC None)
                       "a" (Samples.object "a1" 10 0 1)), r)], s') /\
    (r = None ->
     snd (ListBlobs (Samples.viewAt 100 Samples.listingC None) "a"
            (traced Samples.accept) ([], tt)) = None).
Proof.
  apply (proj1 (scenario_C_oldest_first
                  (Samples.viewAt 100 Samples.listingC None) "a"
                  Samples.accept tt)
           (Samples.object "a1" 10 0 1) (Samples.object "a2" 20 0 1)
           (Samples.object "a2" 30 30 2)).
  - left. reflexivity.
  - reflexivity.
  - intros H. vm_compute in H. discriminate H.
  - cbn. lia.
  - cbn. lia.
  - cbn. lia.
  - reflexivity.
  - reflexivity.
Defined.

(** C3. Scenario C with the generations listed newest first, the order
    the resolver is documented for: blob [a1] has one create generation, of
    time 10; blob [a2] has a create generation of time 20 followed in time
    by a delete marker of time 30, which the listing brings first; the
    horizon, 100, is after all of them. The claim asks for one callback,
    for [a1] only. [ListBlobs] invokes the callback twice and returns nil:
    once for [a1] and once for the deleted [a2], with the metadata of its
    create generation, whichever blob the listing brings first. *)
Theorem ListBlobs_scenario_C_newest_first :
  let a1 := Samples.object "a1" 10 0 1 in
  let a2_delete := Samples.object "a2" 30 30 2 in
  let a2_create := Samples.object "a2" 20 0 1 in
  let view := Samples.viewAt 100 in
  let record := getVersionMetadata (view [] None) "a" in
  (IsDeleteMarker (record a1) = false /\
   IsDeleteMarker (record a2_create) = false /\
   IsDeleteMarker (record a2_delete) = true /\
   BlobID (record a2_create) = BlobID (record a2_delete) /\
   BlobID (record a1) <> BlobID (record a2_create) /\
   descending [record a2_delete; record a2_create] /\
   Forall (fun v => Timestamp v <= 100)
          [record a1; record a2_delete; record a2_create]) /\
  ListBlobs (view [a1; a2_delete; a2_create] None) "a"
    (traced Samples.accept) ([], tt)
  = (([(Metadata (record a1), None); (Metadata (record a2_create), None)],
      tt), None) /\
  ListBlobs (view [a2_delete; a2_create; a1] None) "a"
    (traced Samples.accept) ([], tt)
  = (([(Metadata (record a2_create), None); (Metadata (record a1), None)],
      tt), None).
Proof.
  cbv zeta. split; [|split; reflexivity].
  split; [reflexivity|]. split; [reflexivity|]. split; [reflexivity|].
  split; [reflexivity|]. split; [discriminate|].
  split; repeat constructor; cbn; lia.
Qed.

(** The same for any three such generations: when the delete marker of
    the second blob is listed before its create generation, and the
    callback never fails, the callback is invoked for both blobs. *)
Lemma scenario_C_marker_listed_first {St : Type} gcs prefix
    (cb : St -> blob.Metadata -> St * option error) (s : St) o1 o2 o3 :
  let q := getObjectNameString (base gcs) prefix in
  let v1 := getVersionMetadata gcs q o1 in
  let v2 := getVersionMetadata gcs q o2 in
  let v3 := getVersionMetadata gcs q o3 in
  accepts cb ->
  listingFor gcs prefix
    = {| storage.items := [o1; o3; o2]; storage.final := None |} ->
  storage.Name o2 = storage.Name o3 ->
  BlobID v1 <> BlobID v2 ->
  Timestamp v1 <= pointInTime gcs ->
  Timestamp v2 <= pointInTime gcs ->
  Timestamp v3 <= pointInTime gcs ->
  IsDeleteMarker v1 = false ->
  IsDeleteMarker v2 = false ->
  IsDeleteMarker v3 = true ->
  ListBlobs gcs prefix (traced cb) ([], s)
  = (([(Metadata v1, None); (Metadata v2, None)],
      handed cb s [Metadata v1; Metadata v2]), None).
Proof.
  intros q v1 v2 v3 Hc Hlist Hname Hne H1 H2 H3 Hlive Hlive2 Hdel.
  assert (Hid : BlobID v3 = BlobID v2).
  { unfold v3, v2, BlobID, getVersionMetadata. cbn. by rewrite Hname. }
  unfold ListBlobs, listBlobVersions, list_.
  unfold listingFor in Hlist. rewrite Hlist.
  cbn [storage.items storage.final list_loop andb storage.Prefix].
  fold q. fold v1 v2 v3.
  rewrite ListBlobs_callback_first.
  rewrite ListBlobs_callback_next by congruence.
  rewrite (newestAtUnlessDeleted_all [v1]) by (by repeat constructor).
  cbn [last]. rewrite Hlive. cbn [negb].
  unfold traced at 1.
  pose proof (Hc s (Metadata v1)) as Hc1.
  destruct (cb s (Metadata v1)) as [s1 r1] eqn:Hcb1. cbn in Hc1. subst r1.
  cbn [app]. rewrite Hid.
  rewrite ListBlobs_callback_same. cbn [app].
  rewrite (newestAtUnlessDeleted_all [v3; v2]) by (by repeat constructor).
  cbn [last]. rewrite Hlive2. cbn [negb].
  unfold traced.
  pose proof (Hc s1 (Metadata v2)) as Hc2.
  destruct (cb s1 (Metadata v2)) as [s2 r2] eqn:Hcb2. cbn in Hc2. subst r2.
  unfold handed. cbn [foldl]. rewrite Hcb1. cbn [fst]. by rewrite Hcb2.
Qed.

(** ** Observed and plain runs *)

(** Two closures that step alike over related states run alike through
    the loop of [list_]. *)
Lemma list_loop_alike {X1 X2 : Type} (R : X1 -> X2 -> Prop)
    gcs query onlyMatching
    (c1 : versionMetadataCallback X1) (c2 : versionMetadataCallback X2) fin :
  (forall x1 x2 vm,
     R x1 x2 ->
     R (fst (c1 x1 vm)) (fst (c2 x2 vm)) /\
     snd (c1 x1 vm) = snd (c2 x2 vm)) ->
  forall its x1 x2,
    R x1 x2 ->
    R (fst (list_loop gcs query onlyMatching c1 its fin x1))
      (fst (list_loop gcs query onlyMatching c2 its fin x2)) /\
    snd (list_loop gcs query onlyMatching c1 its fin x1)
    = snd (list_loop gcs query onlyMatching c2 its fin x2).
Proof.
  intros Hstep. induction its as [|oi its IH]; intros x1 x2 HR.
  - cbn. by destruct fin.
  - cbn [list_loop]. destruct (onlyMatching && _); [done|].
    destruct (Hstep x1 x2
                (getVersionMetadata gcs (storage.Prefix query) oi) HR)
      as [HR' Hr].
    destruct (c1 x1 _) as [x1' r1], (c2 x2 _) as [x2' r2].
    cbn in HR', Hr. subst r2. destruct r1; [done|]. by apply IH.
Qed.

Lemma traced_alike {St A : Type} (callback : St -> A -> St * option error)
    log s a :
  snd (fst (traced callback (log, s) a)) = fst (callback s a) /\
  snd (traced callback (log, s) a) = snd (callback s a).
Proof. unfold traced. by destruct (callback s a). Qed.

Lemma getBlobVersions_loop_alike {St : Type} gcs query
    (callback : versionMetadataCallback St) its fin found log s :
  (fst (fst (list_loop gcs query true
               (fun '(_, s0) vm =>
                  let '(s1, err) := traced callback s0 vm in
                  ((true, s1), err))
               its fin (found, (log, s))))
   = fst (fst (list_loop gcs query true
                 (fun '(_, s0) vm =>
                    let '(s1, err) := callback s0 vm in ((true, s1), err))
                 its fin (found, s))) /\
   snd (snd (fst (list_loop gcs query true
                    (fun '(_, s0) vm =>
                       let '(s1, err) := traced callback s0 vm in
                       ((true, s1), err))
                    its fin (found, (log, s)))))
   = snd (fst (list_loop gcs query true
                 (fun '(_, s0) vm =>
                    let '(s1, err) := callback s0 vm in ((true, s1), err))
                 its fin (found, s)))) /\
  snd (list_loop gcs query true
         (fun '(_, s0) vm =>
            let '(s1, err) := traced callback s0 vm in ((true, s1), err))
         its fin (found, (log, s)))
  = snd (list_loop gcs query true
           (fun '(_, s0) vm =>
              let '(s1, err) := callback s0 vm in ((true, s1), err))
           its fin (found, s)).
Proof.
  apply (list_loop_alike
           (fun (x1 : bool * (list (versionMetadata * option error) * St))
                (x2 : bool * St) =>
              fst x1 = fst x2 /\ snd (snd x1) = snd x2)); [|done].
  intros [f1 [log1 s1]] [f2 s2] vm [_ Hs]. cbn in Hs. subst s2.
  destruct (traced_alike callback log1 s1 vm) as [H1 H2].
  destruct (traced callback (log1, s1) vm) as [[log2 s2] r2].
  destruct (callback s1 vm) as [s3 r3]. cbn in *. by subst.
Qed.

Lemma ListBlobs_loop_alike {St : Type} gcs query
    (cb : St -> blob.Metadata -> St * option error)
    its fin previousID vs log s :
  (fst (fst (list_loop gcs query false (ListBlobs_callback gcs (traced cb))
               its fin (previousID, vs, (log, s))))
   = fst (fst (list_loop gcs query false (ListBlobs_callback gcs cb)
                 its fin (previousID, vs, s))) /\
   snd (snd (fst (list_loop gcs query false
                    (ListBlobs_callback gcs (traced cb))
                    its fin (previousID, vs, (log, s)))))
   = snd (fst (list_loop gcs query false (ListBlobs_callback gcs cb)
                 its fin (previousID, vs, s)))) /\
  snd (list_loop gcs query false (ListBlobs_callback gcs (traced cb))
         its fin (previousID, vs, (log, s)))
  = snd (list_loop gcs query false (ListBlobs_callback gcs cb)
           its fin (previousID, vs, s)).
Proof.
  apply (list_loop_alike
           (fun (x1 : blob.ID * list versionMetadata
                      * (list (blob.Metadata * option error) * St))
                (x2 : blob.ID * list versionMetadata * St) =>
              fst x1 = fst x2 /\ snd (snd x1) = snd x2)); [|done].
  intros [[p1 vs1] [log1 s1]] [[p2 vs2] s2] vm [Hp Hs].
  cbn in Hp, Hs. inversion Hp; subst.
  unfold ListBlobs_callback. destruct (negb _); [|done].
  destruct (newestAtUnlessDeleted vs2 (pointInTime gcs)) as [v found].
  destruct found; [|done].
  destruct (traced_alike cb log1 s2 (Metadata v)) as [H1 H2].
  destruct (traced cb (log1, s2) (Metadata v)) as [[log2 s3] r3].
  destruct (cb s2 (Metadata v)) as [s4 r4]. cbn in *. subst.
  by destruct r4.
Qed.

(** Observing the callback changes neither the answer of a call nor the
    state the callback is left in. *)
Lemma traced_runs_alike {St : Type} gcs prefix :
  (forall onlyMatching (callback : versionMetadataCallback St) log s,
     snd (fst (list_ gcs prefix onlyMatching (traced callback) (log, s)))
       = fst (list_ gcs prefix onlyMatching callback s) /\
     snd (list_ gcs prefix onlyMatching (traced callback) (log, s))
       = snd (list_ gcs prefix onlyMatching callback s)) /\
  (forall (callback : versionMetadataCallback St) log s,
     snd (fst (getBlobVersions gcs prefix (traced callback) (log, s)))
       = fst (getBlobVersions gcs prefix callback s) /\
     snd (getBlobVersions gcs prefix (traced callback) (log, s))
       = snd (getBlobVersions gcs prefix callback s)) /\
  (forall (cb : St -> blob.Metadata -> St * option error) log s,
     snd (fst (ListBlobs gcs prefix (traced cb) (log, s)))
       = fst (ListBlobs gcs prefix cb s) /\
     snd (ListBlobs gcs prefix (traced cb) (log, s))
       = snd (ListBlobs gcs prefix cb s)).
Proof.
  split; [|split].
  - intros onlyMatching callback log s. unfold list_.
    apply (list_loop_alike (fun x1 x2 => snd x1 = x2)); [|done].
    intros [log1 s1] x2 vm <-. apply traced_alike.
  - intros callback log s. unfold getBlobVersions, list_.
    match goal with
    | |- context [list_loop gcs ?q true _ ?its ?fin (false, (log, s))] =>
        destruct (getBlobVersions_loop_alike gcs q callback its fin
                    false log s) as [[Hf Hs] Hr]
    end.
    destruct (list_loop _ _ _ _ _ _ (false, (log, s)))
      as [[f1 [log1 s1]] r1].
    destruct (list_loop _ _ _ _ _ _ (false, s)) as [[f2 s2] r2].
    cbn in Hf, Hs, Hr. subst f2 s2 r2.
    destruct r1; [done|]. by destruct (negb f1).
  - intros cb log s. unfold ListBlobs, listBlobVersions, list_.
    match goal with
    | |- context [list_loop gcs ?q false _ ?its ?fin ("", [], (log, s))] =>
        destruct (ListBlobs_loop_alike gcs q cb its fin "" [] log s)
          as [[Hf Hs] Hr]
    end.
    destruct (list_loop gcs _ false (ListBlobs_callback gcs (traced cb)) _ _ _)
      as [[[p1 vs1] [log1 s1]] r1].
    destruct (list_loop gcs _ false (ListBlobs_callback gcs cb) _ _ _)
      as [[[p2 vs2] s2] r2].
    cbn in Hf, Hs, Hr. inversion Hf; subst.
    destruct r2; [done|].
    destruct (newestAtUnlessDeleted vs2 (pointInTime gcs)) as [v found].
    destruct found; [|done]. apply traced_alike.
Qed.

(** ** Callback errors *)

Lemma allAccepted_app {A : Type} (l k : list (A * option error)) :
  allAccepted l -> allAccepted k -> allAccepted (l ++ k).
Proof. unfold allAccepted. rewrite Forall_app. by split. Qed.











(** ** [getBlobVersions] *)












(** A listing that is not ordered by name, which a bucket does not
    return: an object with a longer name comes before the object with the
    exact name. [getBlobVersions] stops at the first object and answers
    NotFound, although the listing holds an object named exactly as
    queried. *)
Lemma exact_name_after_longer_name_not_found :
  let gcs := Samples.viewAt 100 Samples.listingLongerNameFirst None in
  snd (getBlobVersions gcs "x" (traced Samples.acceptVersion) ([], tt))
    = Some ErrBlobNotFound /\
  exists oi,
    oi ∈ storage.items (listingFor gcs "x") /\
    storage.Name oi = getObjectNameString (base gcs) "x".
Proof.
  split; [reflexivity|].
  exists (Samples.object "x" 20 0 1). split; [|reflexivity].
  apply list_elem_of_further, list_elem_of_here.
Qed.

(** ** The resolver on slices *)

Lemma slices_load_view m vs i v :
  slices.view m vs !! i = Some v -> slices.load vs i m = Some (v, m).
Proof.
  unfold slices.view, slices.load. intros H.
  apply lookup_take_Some in H as [H Hi].
  rewrite lookup_drop in H.
  apply Nat.ltb_lt in Hi. unfold slices.memory in *. by rewrite Hi, H.
Qed.

(** A store through a slice does change the memory it shares: the
    resolver leaving the memory as it is is a property of its code. *)
Lemma slices_store_changes m vs i v w :
  slices.view m vs !! i = Some w -> v <> w ->
  exists m', slices.store vs i v m = Some (tt, m') /\ m' <> m.
Proof.
  unfold slices.view, slices.store. intros H Hne.
  apply lookup_take_Some in H as [H Hi]. rewrite lookup_drop in H.
  assert (Hlt : (slices.ptr vs + i < length m)%nat)
    by (by eapply lookup_lt_Some).
  apply Nat.ltb_lt in Hi, Hlt. unfold slices.memory in *. rewrite Hi, Hlt.
  eexists. split; [reflexivity|]. intros Heq.
  apply Nat.ltb_lt in Hlt.
  pose proof (list_lookup_insert_eq m (slices.ptr vs + i)%nat v Hlt) as Hl.
  rewrite Heq, H in Hl. congruence.
Qed.

(** The loop of [getOlderThan] from index [i] returns the window cut after
    the entries it keeps, and leaves the memory as it is. *)
Lemma slices_getOlderThan_from m vs t :
  slices.valid m vs ->
  forall n i,
    (i + n = slices.len vs)%nat ->
    slices.getOlderThan_from vs t n i m
    = Some ({| slices.ptr := slices.ptr vs;
               slices.len :=
                 i + length (getOlderThan (drop i (slices.view m vs)) t);
               slices.cap := slices.cap vs |}, m).
Proof.
  intros [Hcap Hlen].
  assert (Hview : length (slices.view m vs) = slices.len vs).
  { unfold slices.view. rewrite length_take, length_drop. lia. }
  induction n as [|n IH]; intros i Hi.
  - cbn. rewrite drop_ge by lia. cbn. unfold slices.ret.
    destruct vs as [p l c]. cbn in *. do 3 f_equal. lia.
  - cbn [slices.getOlderThan_from]. unfold slices.bind.
    destruct (lookup_lt_is_Some_2 (slices.view m vs) i) as [v Hv]; [lia|].
    rewrite (slices_load_view _ _ _ _ Hv).
    rewrite (drop_S _ _ _ Hv). cbn [getOlderThan].
    destruct (time.After (Timestamp v) t).
    + unfold slices.upto.
      assert ((i <=? slices.cap vs)%nat = true) as -> by (apply Nat.leb_le; lia).
      unfold slices.ret. cbn. do 3 f_equal. lia.
    + rewrite IH by lia. cbn [length]. do 3 f_equal. lia.
Qed.

(** On slices [getOlderThan] returns a window that shows what
    [getOlderThan] on sequences keeps, shares the array, and leaves the
    memory as it is. *)
Lemma slices_getOlderThan m vs t :
  slices.valid m vs ->
  exists vs',
    slices.getOlderThan vs t m = Some (vs', m) /\
    slices.ptr vs' = slices.ptr vs /\
    slices.len vs' = length (getOlderThan (slices.view m vs) t) /\
    slices.view m vs' = getOlderThan (slices.view m vs) t.
Proof.
  intros Hv. unfold slices.getOlderThan.
  rewrite (slices_getOlderThan_from m vs t Hv) by lia.
  eexists. split; [reflexivity|]. split; [reflexivity|].
  rewrite drop_0. split; [reflexivity|].
  set (L := getOlderThan (slices.view m vs) t).
  destruct (getOlderThan_prefix (slices.view m vs) t) as [k Hk]. fold L in Hk.
  assert (Hle : (length L <= slices.len vs)%nat).
  { apply (f_equal length) in Hk. rewrite length_app in Hk.
    unfold slices.view in Hk. rewrite length_take in Hk. lia. }
  unfold slices.view at 1. cbn [slices.ptr slices.len Nat.add].
  rewrite <- (take_app_length L k) at 2. rewrite <- Hk.
  unfold slices.view. rewrite take_take. f_equal. lia.
Qed.

(** On slices [newestAtUnlessDeleted] does not fail, returns what it
    returns on the sequence the slice shows, and leaves the memory as it
    is. *)
Lemma slices_newestAtUnlessDeleted m vs t :
  slices.valid m vs ->
  slices.newestAtUnlessDeleted vs t m
  = Some (newestAtUnlessDeleted (slices.view m vs) t, m).
Proof.
  intros Hv. unfold slices.newestAtUnlessDeleted, slices.bind.
  destruct (slices_getOlderThan m vs t Hv) as (vs' & -> & _ & Hlen & Hview).
  unfold newestAtUnlessDeleted. rewrite <- Hview in *.
  destruct (Nat.eqb_spec (slices.len vs') 0) as [H0|H0].
  - rewrite H0 in Hlen. symmetry in Hlen.
    apply length_zero_iff_nil in Hlen. by rewrite Hlen.
  - rewrite last_lookup, <- Hlen.
    destruct (lookup_lt_is_Some_2 (slices.view m vs')
                (pred (slices.len vs'))) as [v Hl]; [lia|].
    rewrite Hl. replace (slices.len vs' - 1)%nat with (pred (slices.len vs'))
      by lia.
    by rewrite (slices_load_view _ _ _ _ Hl).
Qed.

(** C8. Evaluating the resolver on a slice [vs] twice in a row gives the
    same (value, found) both times, the one the resolver gives on the
    sequence [vs] shows, and leaves the memory as it was: the entries of
    [vs] and their order are unchanged. *)
Theorem newestAtUnlessDeleted_twice m vs t :
  slices.valid m vs ->
  exists r,
    r = newestAtUnlessDeleted (slices.view m vs) t /\
    slices.bind (slices.newestAtUnlessDeleted vs t) (fun r1 =>
      slices.bind (slices.newestAtUnlessDeleted vs t) (fun r2 =>
        slices.ret (r1, r2))) m
    = Some ((r, r), m).
Proof.
  intros Hv. eexists. split; [reflexivity|].
  unfold slices.bind.
  rewrite !(slices_newestAtUnlessDeleted m vs t Hv). reflexivity.
Qed.

Lemma newestAtUnlessDeleted_twice_witness :
  exists r,
    r = newestAtUnlessDeleted
          (slices.view Samples.historyAscending
             {| slices.ptr := 0; slices.len := 3; slices.cap := 3 |}) 25 /\
    slices.bind
      (slices.newestAtUnlessDeleted
         {| slices.ptr := 0; slices.len := 3; slices.cap := 3 |} 25)
      (fun r1 =>
         slices.bind
           (slices.newestAtUnlessDeleted
              {| slices.ptr := 0; slices.len := 3; slices.cap := 3 |} 25)
           (fun r2 => slices.ret (r1, r2)))
      Samples.historyAscending
    = Some ((r, r), Samples.historyAscending).
Proof.
  apply (newestAtUnlessDeleted_twice Samples.historyAscending
           {| slices.ptr := 0; slices.len := 3; slices.cap := 3 |} 25).
  split; cbn; lia.
Defined.

(** ** The read-only view *)

(** What [maybePointInTimeStore] returns when a point-in-time is
    requested is the wrapper around the point-in-time storage. *)
Lemma maybePointInTimeStore_requested gcs pointInTime st pit :
  maybePointInTimeStore gcs pointInTime = Some (Some st, None) ->
  PointInTime gcs = Some pit -> pit <> time.zero ->
  exists t,
    pointInTime = Some t /\
    st = ReadonlyWrapper
           (PointInTimeStorage {| base := gcs; pointInTime := t |}).
Proof.
  unfold maybePointInTimeStore. intros H Hp Hnz. rewrite Hp in H.
  assert (time.IsZero pit = false) as Hz.
  { apply not_true_iff_false. by rewrite IsZero_spec. }
  rewrite Hz in H.
  destruct pointInTime as [t|]; [|done].
  destruct (storage.Attrs (bucket gcs)) as [attrs|err]; [|done].
  destruct (negb (storage.VersioningEnabled attrs)); [done|].
  inversion H. by exists t.
Qed.

(** Without the wrapper, [PutBlob] and [DeleteBlob] on the point-in-time
    storage are the promoted methods of the live storage: each sends a
    request to the object service. *)
Lemma PointInTimeStorage_mutators_reach_service {Bytes : Type}
    (svc : ObjectsService Bytes) pit id data w :
  requests (fst (Storage_PutBlob svc (PointInTimeStorage pit) id data w))
    = requests w ++ [InsertObject (getObjectNameString (base pit) id)] /\
  requests (fst (Storage_DeleteBlob svc (PointInTimeStorage pit) id w))
    = requests w ++ [DeleteObject (getObjectNameString (base pit) id)].
Proof.
  cbn. unfold gcsStorageMethods.PutBlob, gcsStorageMethods.DeleteBlob.
  destruct (Insert svc _ data (remote w)), (Delete svc _ (remote w)).
  by split.
Qed.

(** C6. Through the storage [maybePointInTimeStore] returns for a
    requested point-in-time, [PutBlob] and [DeleteBlob] fail with the
    read-only error and leave the world as it is: the bucket is unchanged
    and no request has reached the object service. [GetBlob],
    [GetMetadata] and [ListBlobs] leave the world as it is too. *)
Theorem pointInTime_view_is_read_only {Bytes St : Type}
    (svc : ObjectsService Bytes)
    (live : gcsStorageMethods.LiveReads Bytes St)
    gcs pointInTime st pit :
  maybePointInTimeStore gcs pointInTime = Some (Some st, None) ->
  PointInTime gcs = Some pit -> pit <> time.zero ->
  forall w,
    (forall id data,
       Storage_PutBlob svc st id data w = (w, Some readonly.ErrReadonly)) /\
    (forall id,
       Storage_DeleteBlob svc st id w = (w, Some readonly.ErrReadonly)) /\
    (forall id offset length,
       fst (Storage_GetBlob svc live st id offset length w) = w) /\
    (forall id, fst (Storage_GetMetadata live st id w) = w) /\
    (forall prefix cb s, fst (Storage_ListBlobs live st prefix cb s w) = w).
Proof.
  intros H Hpit Hnz w.
  destruct (maybePointInTimeStore_requested _ _ _ _ H Hpit Hnz)
    as (t & -> & ->).
  repeat split.
Qed.

Lemma pointInTime_view_is_read_only_witness :
  let st := ReadonlyWrapper
              (PointInTimeStorage
                 {| base := Samples.storageOf (Some 25) true;
                    pointInTime := 25 |}) in
  let w := ServiceSamples.world in
  Storage_PutBlob ServiceSamples.service st "x" tt w
    = (w, Some readonly.ErrReadonly) /\
  Storage_DeleteBlob ServiceSamples.service st "x" w
    = (w, Some readonly.ErrReadonly) /\
  fst (Storage_GetBlob ServiceSamples.service ServiceSamples.liveReads
         st "x" 0 1 w) = w /\
  fst (Storage_GetMetadata ServiceSamples.liveReads st "x" w) = w /\
  fst (Storage_ListBlobs ServiceSamples.liveReads st "" Samples.accept tt w)
    = w.
Proof.
  cbv zeta.
  destruct (pointInTime_view_is_read_only ServiceSamples.service
              ServiceSamples.liveReads
              (Samples.storageOf (Some 25) true) (Some 25)
              (ReadonlyWrapper
                 (PointInTimeStorage
                    {| base := Samples.storageOf (Some 25) true;
                       pointInTime := 25 |}))
              25 eq_refl eq_refl ltac:(discriminate) ServiceSamples.world)
    as (Hput & Hdelete & Hget & Hmeta & Hlist).
  split; [apply Hput|]. split; [apply Hdelete|]. split; [apply Hget|].
  split; [apply Hmeta|apply Hlist].
Defined.

(** On the sample world, a [PutBlob] through the view changes nothing,
    while the same call on the storage inside the wrapper does reach the
    service. *)
Lemma PutBlob_through_view_example :
  let pit := {| base := Samples.storageOf (Some 25) true;
                pointInTime := 25 |} in
  Storage_PutBlob ServiceSamples.service
    (ReadonlyWrapper (PointInTimeStorage pit)) "x" tt ServiceSamples.world
    = (ServiceSamples.world, Some readonly.ErrReadonly) /\
  requests (fst (Storage_PutBlob ServiceSamples.service
                   (PointInTimeStorage pit) "x" tt ServiceSamples.world))
    = [InsertObject "x"].
Proof. split; reflexivity. Qed.

(** * Further properties of the code *)

(** ** The resolver, for every sequence *)

(** X1. [getOlderThan] returns the longest prefix of [vs] without an entry
    after [t]: [vs] is what it returns followed by a rest that is empty or
    starts with an entry after [t]. *)
Theorem getOlderThan_longest_prefix vs t :
  exists rest,
    vs = getOlderThan vs t ++ rest /\
    Forall (fun v => Timestamp v <= t) (getOlderThan vs t) /\
    match rest with
    | [] => True
    | v :: _ => t < Timestamp v
    end.
Proof.
  induction vs as [|v vs (rest & Heq & Hall & Hrest)]; cbn.
  - exists []. by repeat split.
  - destruct (time.After (Timestamp v) t) eqn:E.
    + exists (v :: vs). split; [done|]. split; [constructor|].
      by apply After_spec.
    + exists rest. split; [cbn; by f_equal|]. split; [|done].
      constructor; [by apply After_false|done].
Qed.

(** X2. What the resolver finds is a record of the sequence, at or before
    the horizon and not a delete marker; when it finds nothing, the value
    it returns is the zero record or a delete marker of the sequence. *)
Theorem newestAtUnlessDeleted_sound vs T v found :
  newestAtUnlessDeleted vs T = (v, found) ->
  (found = true ->
   v ∈ vs /\ Timestamp v <= T /\ IsDeleteMarker v = false) /\
  (found = false ->
   v = zeroVersionMetadata \/ (v ∈ vs /\ IsDeleteMarker v = true)).
Proof.
  unfold newestAtUnlessDeleted.
  destruct (last (getOlderThan vs T)) as [w|] eqn:E.
  - intros [= -> <-]. apply last_Some_elem_of in E.
    assert (Hin : v ∈ vs).
    { destruct (getOlderThan_prefix vs T) as [k Hk]. rewrite Hk.
      apply elem_of_app. by left. }
    assert (Hle : Timestamp v <= T).
    { pose proof (getOlderThan_Forall vs T) as H.
      rewrite Forall_forall in H. by apply H. }
    split.
    + intros Hf. apply negb_true_iff in Hf. done.
    + intros Hf. apply negb_false_iff in Hf. right. done.
  - intros [= <- <-]. split; [done|]. intros _. by left.
Qed.

Lemma newestAtUnlessDeleted_sound_witness :
  Samples.version 20 false "2" ∈ Samples.historyAscending /\
  Timestamp (Samples.version 20 false "2") <= 25 /\
  IsDeleteMarker (Samples.version 20 false "2") = false.
Proof.
  apply (proj1 (newestAtUnlessDeleted_sound Samples.historyAscending 25
                  (Samples.version 20 false "2") true eq_refl)).
  reflexivity.
Defined.

(** X3. When the versions come oldest first, the resolver answers with a
    record that has the maximum timestamp at or before the horizon, found
    unless that record is a delete marker, as soon as some record is at or
    before the horizon; when every record is after the horizon it finds
    nothing. *)
Theorem resolver_on_ascending_history vs T :
  ascending vs ->
  (forall v, v ∈ vs -> Timestamp v <= T ->
     exists w,
       newestAtOrBefore vs T w /\
       newestAtUnlessDeleted vs T = (w, negb (IsDeleteMarker w))) /\
  ((forall v, v ∈ vs -> T < Timestamp v) ->
   newestAtUnlessDeleted vs T = (zeroVersionMetadata, false)).
Proof.
  intros Hs. pose proof (newestAtUnlessDeleted_ascending vs T Hs) as H.
  destruct (last (filter (fun v => Timestamp v <= T) vs)) as [w|] eqn:E.
  - split.
    + intros _ _ _. by exists w.
    + intros Hall. destruct H as [(Hin & Hle & _) _].
      specialize (Hall _ Hin). lia.
  - destruct H as [Hall Hres]. split; [|done].
    intros v Hin Hle. specialize (Hall _ Hin). lia.
Qed.

Lemma resolver_on_ascending_history_witness :
  exists w,
    newestAtOrBefore Samples.historyAscending 25 w /\
    newestAtUnlessDeleted Samples.historyAscending 25
    = (w, negb (IsDeleteMarker w)).
Proof.
  apply (proj1 (resolver_on_ascending_history Samples.historyAscending 25
                  ltac:(repeat constructor; cbn; lia))
           (Samples.version 20 false "2")).
  - apply list_elem_of_further, list_elem_of_here.
  - cbn. lia.
Defined.

(** X4. A later horizon keeps at least what an earlier one keeps:
    [getOlderThan] at the earlier horizon is a prefix of [getOlderThan] at
    the later one. *)
Theorem getOlderThan_monotone vs T1 T2 :
  T1 <= T2 -> getOlderThan vs T1 `prefix_of` getOlderThan vs T2.
Proof.
  intros Hle. induction vs as [|v vs IH]; cbn; [done|].
  destruct (time.After (Timestamp v) T1) eqn:E1; [apply prefix_nil|].
  apply After_false in E1.
  assert (time.After (Timestamp v) T2 = false) as ->
    by (apply After_false; lia).
  by apply prefix_cons.
Qed.

Lemma getOlderThan_monotone_witness :
  getOlderThan Samples.historyAscending 15
    `prefix_of` getOlderThan Samples.historyAscending 25.
Proof.
  apply (getOlderThan_monotone Samples.historyAscending 15 25). lia.
Defined.

(** ** The lister with a callback that never fails *)

Lemma reached_cons_exact q oi its :
  storage.Name oi = q ->
  reached true q (oi :: its) = oi :: reached true q its.
Proof. intros H. cbn. apply String.eqb_eq in H. by rewrite H. Qed.

Lemma length_leadingExact q its :
  (length (leadingExact q its) <= length its)%nat.
Proof.
  induction its as [|oi its IH]; cbn; [done|].
  destruct (String.eqb _ _); cbn; lia.
Qed.

(** The loop of [list] with a callback that never fails hands it the
    records of the objects it reaches, in order, and returns
    [listOutcome]. *)
Lemma list_loop_accepting {X : Type} gcs query onlyMatching
    (c : versionMetadataCallback X) fin :
  accepts c ->
  forall its x,
    list_loop gcs query onlyMatching c its fin x
    = (handed c x
         (map (getVersionMetadata gcs (storage.Prefix query))
              (reached onlyMatching (storage.Prefix query) its)),
       listOutcome onlyMatching (storage.Prefix query) its fin).
Proof.
  intros Hc. induction its as [|oi its IH]; intros x.
  - cbn. unfold listOutcome, reached.
    destruct onlyMatching; cbn; by destruct fin.
  - cbn [list_loop]. unfold listOutcome, reached in *.
    destruct onlyMatching; cbn [andb leadingExact].
    + destruct (String.eqb (storage.Name oi) (storage.Prefix query));
        cbn [negb].
      * specialize (Hc x (getVersionMetadata gcs (storage.Prefix query) oi)).
        destruct (c x _) as [x1 r1] eqn:E. cbn in Hc. subst r1.
        rewrite IH. cbn [map handed foldl length]. rewrite E. cbn [fst].
        f_equal.
      * cbn. done.
    + specialize (Hc x (getVersionMetadata gcs (storage.Prefix query) oi)).
      destruct (c x _) as [x1 r1] eqn:E. cbn in Hc. subst r1.
      rewrite IH. cbn [map handed foldl length]. rewrite E. cbn [fst].
      f_equal.
Qed.

Lemma accepts_traced {St A : Type} (cb : St -> A -> St * option error) :
  accepts cb -> accepts (traced cb).
Proof.
  intros H [log s] a. unfold traced. specialize (H s a).
  by destruct (cb s a).
Qed.

Lemma handed_app {St A : Type} (cb : St -> A -> St * option error) s l k :
  handed cb s (l ++ k) = handed cb (handed cb s l) k.
Proof. unfold handed. apply foldl_app. Qed.

Lemma handed_cons {St A : Type} (cb : St -> A -> St * option error) s a l :
  handed cb s (a :: l) = handed cb (fst (cb s a)) l.
Proof. reflexivity. Qed.

Lemma handed_traced {St A : Type} (cb : St -> A -> St * option error)
    log s recs :
  accepts cb ->
  handed (traced cb) (log, s) recs
  = (log ++ map (fun a => (a, None)) recs, handed cb s recs).
Proof.
  intros H. revert log s.
  induction recs as [|a recs IH]; intros log s.
  - cbn. by rewrite app_nil_r.
  - rewrite !handed_cons. specialize (H s a). unfold traced at 2.
    destruct (cb s a) as [s1 r1]. cbn in H. subst r1. cbn [fst].
    rewrite IH, <- app_assoc. reflexivity.
Qed.

(** X5. With a callback that never fails, [listBlobVersions] hands the
    callback one record for every object of the listing, in listing order,
    also when the iterator ends with an error; it returns nil when the
    iterator ends, and the iterator's error wrapped with the listing prefix
    otherwise. *)
Theorem listBlobVersions_hands_every_record {St : Type} gcs prefix
    (callback : versionMetadataCallback St) s :
  accepts callback ->
  let q := getObjectNameString (base gcs) prefix in
  let recs := map (getVersionMetadata gcs q)
                  (storage.items (listingFor gcs prefix)) in
  listBlobVersions gcs prefix (traced callback) ([], s)
  = ((map (fun vm => (vm, None)) recs, handed callback s recs),
     match storage.final (listingFor gcs prefix) with
     | None => None
     | Some err =>
         Some (Wrapf err "could not list objects with prefix %q" [AStr q])
     end).
Proof.
  intros Hc q recs. unfold listBlobVersions, list_.
  rewrite (list_loop_accepting _ _ _ _ _ (accepts_traced _ Hc)).
  cbn [storage.Prefix reached]. fold (listingFor gcs prefix). fold q.
  fold recs. rewrite (handed_traced _ _ _ _ Hc). cbn [app].
  f_equal. unfold listOutcome, reached. by rewrite Nat.ltb_irrefl.
Qed.

Lemma listBlobVersions_hands_every_record_witness :
  listBlobVersions (Samples.viewAt 100 Samples.listingC None) "a"
    (traced Samples.acceptVersion) ([], tt)
  = ((map (fun vm => (vm, None))
        (map (getVersionMetadata (Samples.viewAt 100 Samples.listingC None)
                "a")
             Samples.listingC),
      handed Samples.acceptVersion tt
        (map (getVersionMetadata (Samples.viewAt 100 Samples.listingC None)
                "a")
             Samples.listingC)),
     None).
Proof.
  apply (listBlobVersions_hands_every_record
           (Samples.viewAt 100 Samples.listingC None) "a"
           Samples.acceptVersion tt).
  intros s a. reflexivity.
Defined.

(** The closure of [getBlobVersions] sets [foundBlobs] as soon as it is
    handed a record. *)
Lemma handed_getBlobVersions {St : Type}
    (callback : versionMetadataCallback St) found s recs :
  handed (fun '(_, s0) vm =>
            let '(s1, err) := callback s0 vm in ((true, s1), err))
         (found, s) recs
  = (match recs with [] => found | _ => true end, handed callback s recs).
Proof.
  revert found s. induction recs as [|vm recs IH]; intros found s; [done|].
  rewrite !handed_cons. destruct (callback s vm) as [s1 r1]. cbn [fst].
  rewrite IH. by destruct recs.
Qed.

(** [getBlobVersions] with a callback that never fails. *)
Lemma getBlobVersions_accepting {St : Type} gcs b
    (callback : versionMetadataCallback St) s :
  accepts callback ->
  let q := getObjectNameString (base gcs) b in
  let it := listingFor gcs b in
  let recs := map (getVersionMetadata gcs q)
                  (leadingExact q (storage.items it)) in
  getBlobVersions gcs b callback s
  = (handed callback s recs,
     match listOutcome true q (storage.items it) (storage.final it) with
     | Some err => Some err
     | None =>
         match recs with
         | [] => Some ErrBlobNotFound
         | _ => None
         end
     end).
Proof.
  intros Hc q it recs. unfold getBlobVersions, list_.
  rewrite list_loop_accepting.
  - cbn [storage.Prefix reached]. fold (listingFor gcs b). fold it q recs.
    rewrite handed_getBlobVersions.
    destruct (listOutcome true q _ _); [done|]. by destruct recs.
  - intros [f s0] vm. specialize (Hc s0 vm).
    by destruct (callback s0 vm).
Qed.

(** X6. With a callback that never fails, [getBlobVersions] hands the
    callback the records of the objects named exactly as queried that come
    before any other object of the listing, and no other record. It
    returns the iterator's error, wrapped, if the iterator fails before an
    object of another name is met; else NotFound if it handed nothing; else
    nil. *)
Theorem getBlobVersions_hands_leading_exact {St : Type} gcs b
    (callback : versionMetadataCallback St) s :
  accepts callback ->
  let q := getObjectNameString (base gcs) b in
  let it := listingFor gcs b in
  let recs := map (getVersionMetadata gcs q)
                  (leadingExact q (storage.items it)) in
  getBlobVersions gcs b (traced callback) ([], s)
  = ((map (fun vm => (vm, None)) recs, handed callback s recs),
     match listOutcome true q (storage.items it) (storage.final it) with
     | Some err => Some err
     | None =>
         match recs with
         | [] => Some ErrBlobNotFound
         | _ => None
         end
     end).
Proof.
  intros Hc q it recs.
  rewrite (getBlobVersions_accepting gcs b _ _ (accepts_traced _ Hc)).
  fold q it recs. by rewrite (handed_traced _ _ _ _ Hc).
Qed.

Lemma getBlobVersions_hands_leading_exact_witness :
  getBlobVersions
    (Samples.viewAt 100
       [Samples.object "x" 20 0 1; Samples.object "xy" 10 0 1] None)
    "x" (traced Samples.acceptVersion) ([], tt)
  = (([(getVersionMetadata (Samples.viewAt 100 [] None) "x"
          (Samples.object "x" 20 0 1), None)], tt),
     None).
Proof.
  apply (getBlobVersions_hands_leading_exact
           (Samples.viewAt 100
              [Samples.object "x" 20 0 1; Samples.object "xy" 10 0 1] None)
           "x" Samples.acceptVersion tt).
  intros s a. reflexivity.
Defined.

(** ** [getMetadata] for every listing *)

(** The callback of [getMetadata] never fails and keeps, in order, the
    records that are not after the horizon. *)
Lemma handed_getMetadata T vml recs :
  handed (fun vml m =>
            if negb (time.After (Timestamp m) T)
            then (vml ++ [m], None)
            else (vml, None))
         vml recs
  = vml ++ filter (fun v => Timestamp v <= T) recs.
Proof.
  revert vml. induction recs as [|m recs IH]; intros vml.
  - cbn. by rewrite app_nil_r.
  - rewrite handed_cons.
    destruct (time.After (Timestamp m) T) eqn:E; cbn [negb fst].
    + rewrite IH. apply After_spec in E.
      rewrite filter_cons_False by lia. done.
    + rewrite IH. apply After_false in E.
      rewrite filter_cons_True by done. by rewrite <- app_assoc.
Qed.

Lemma getMetadata_unfold gcs b :
  let q := getObjectNameString (base gcs) b in
  let it := listingFor gcs b in
  let recs := map (getVersionMetadata gcs q)
                  (leadingExact q (storage.items it)) in
  getMetadata gcs b =
    match listOutcome true q (storage.items it) (storage.final it) with
    | Some err =>
        (zeroVersionMetadata,
         Some (Wrapf err "could not get version metadata for blob %s"
                 [AStr b]))
    | None =>
        match recs with
        | [] =>
            (zeroVersionMetadata,
             Some (Wrapf ErrBlobNotFound
                     "could not get version metadata for blob %s" [AStr b]))
        | _ =>
            match last (filter (fun v => Timestamp v <= pointInTime gcs) recs)
            with
            | Some v =>
                if IsDeleteMarker v
                then (zeroVersionMetadata, Some ErrBlobNotFound)
                else (v, None)
            | None => (zeroVersionMetadata, Some ErrBlobNotFound)
            end
        end
    end.
Proof.
  intros q it recs. unfold getMetadata.
  rewrite getBlobVersions_accepting.
  - fold q it recs. rewrite handed_getMetadata. cbn [app].
    destruct (listOutcome true q _ _); [done|].
    destruct recs as [|r0 recs0] eqn:Hrecs; [done|]. rewrite <- Hrecs.
    rewrite newestAtUnlessDeleted_all.
    + destruct (last _) as [v|]; [|done]. by destruct (IsDeleteMarker v).
    + apply Forall_forall. intros v Hv.
      by apply list_elem_of_filter in Hv as [? _].
  - intros vml m. by destruct (negb _).
Qed.

(** X7. What [getMetadata] answers, for every listing. Of the objects
    named exactly as the blob that come first in the listing, it takes the
    one listed last among those created at or before the horizon, whatever
    the order of their timestamps. It returns that version unless it is a
    delete marker, and NotFound if it is one or if there is none. When the
    listing has no such object at all it returns NotFound wrapped with the
    blob ID, and when the iterator fails before an object of another name
    is met it returns the iterator's error wrapped twice. *)
Theorem getMetadata_takes_last_listed gcs b :
  let q := getObjectNameString (base gcs) b in
  let it := listingFor gcs b in
  let recs := map (getVersionMetadata gcs q)
                  (leadingExact q (storage.items it)) in
  getMetadata gcs b =
    match listOutcome true q (storage.items it) (storage.final it) with
    | Some err =>
        (zeroVersionMetadata,
         Some (Wrapf err "could not get version metadata for blob %s"
                 [AStr b]))
    | None =>
        match recs with
        | [] =>
            (zeroVersionMetadata,
             Some (Wrapf ErrBlobNotFound
                     "could not get version metadata for blob %s" [AStr b]))
        | _ =>
            match last (filter (fun v => Timestamp v <= pointInTime gcs) recs)
            with
            | Some v =>
                if IsDeleteMarker v
                then (zeroVersionMetadata, Some ErrBlobNotFound)
                else (v, None)
            | None => (zeroVersionMetadata, Some ErrBlobNotFound)
            end
        end
    end.
Proof. apply getMetadata_unfold. Qed.

Lemma leadingExact_elem q its oi :
  oi ∈ leadingExact q its -> oi ∈ its /\ storage.Name oi = q.
Proof.
  induction its as [|a its IH]; cbn; [by intros ?%elem_of_nil|].
  destruct (String.eqb (storage.Name a) q) eqn:E;
    [|by intros ?%elem_of_nil].
  apply String.eqb_eq in E.
  intros [->|Hin]%elem_of_cons.
  - split; [apply list_elem_of_here|done].
  - destruct (IH Hin). split; [by apply list_elem_of_further|done].
Qed.

Lemma stripPrefix_app p s : stripPrefix (p +:+ s) p = Some s.
Proof.
  induction p as [|c p IH]; [by destruct s|].
  change (String c p +:+ s) with (String c (p +:+ s)).
  cbn [stripPrefix]. by rewrite Ascii.eqb_refl.
Qed.

Lemma string_app_nil_r (s : string) : s +:+ "" = s.
Proof.
  induction s as [|c s IH]; [reflexivity|].
  change (String c s +:+ "") with (String c (s +:+ "")). by rewrite IH.
Qed.

Lemma string_app_assoc (a b c : string) : (a +:+ b) +:+ c = a +:+ (b +:+ c).
Proof.
  induction a as [|x a IH]; [reflexivity|].
  change ((String x a +:+ b) +:+ c) with (String x ((a +:+ b) +:+ c)).
  change (String x a +:+ (b +:+ c)) with (String x (a +:+ (b +:+ c))).
  by rewrite IH.
Qed.

Lemma TrimPrefix_app p s : TrimPrefix (p +:+ s) p = s.
Proof. unfold TrimPrefix. by rewrite stripPrefix_app. Qed.

Lemma TrimPrefix_self s : TrimPrefix s s = "".
Proof. rewrite <- (string_app_nil_r s) at 1. apply TrimPrefix_app. Qed.

(** X8. A version [GetMetadata] returns without error carries the empty
    blob ID, not the ID asked for: the lister trims the whole queried name
    off the object's name. Its length and timestamp are the size and the
    creation time of an object of the listing named exactly as the blob,
    and the timestamp is not after the horizon. *)
Theorem GetMetadata_found_shape gcs b m :
  GetMetadata gcs b = (m, None) ->
  blob.BlobID m = "" /\
  blob.Timestamp m <= pointInTime gcs /\
  exists oi,
    oi ∈ storage.items (listingFor gcs b) /\
    storage.Name oi = getObjectNameString (base gcs) b /\
    blob.Length m = storage.Size oi /\
    blob.Timestamp m = storage.Created oi.
Proof.
  unfold GetMetadata. rewrite getMetadata_unfold.
  set (q := getObjectNameString (base gcs) b).
  set (it := listingFor gcs b).
  set (recs := map (getVersionMetadata gcs q) _).
  destruct (listOutcome true q _ _); [done|].
  destruct recs as [|r0 recs0] eqn:Hrecs; [done|]. rewrite <- Hrecs.
  destruct (last _) as [v|] eqn:E; [|done].
  destruct (IsDeleteMarker v); [done|]. intros [= <-].
  apply last_Some_elem_of, list_elem_of_filter in E as [Hle Hin].
  rewrite Hrecs in Hin. rewrite <- Hrecs in Hin. unfold recs in Hin.
  apply list_elem_of_fmap in Hin as (oi & -> & Hoi).
  apply leadingExact_elem in Hoi as [Hoi Hname].
  split; [|split; [exact Hle|]].
  - cbn. unfold toBlobID. rewrite Hname. apply TrimPrefix_self.
  - exists oi. by repeat split.
Qed.

Lemma GetMetadata_found_shape_witness :
  blob.BlobID {| blob.BlobID := ""; blob.Length := 1; blob.Timestamp := 20 |}
    = "" /\
  blob.Timestamp
    {| blob.BlobID := ""; blob.Length := 1; blob.Timestamp := 20 |}
    <= pointInTime (Samples.viewAt 25 Samples.listingAscending None) /\
  exists oi,
    oi ∈ storage.items
           (listingFor (Samples.viewAt 25 Samples.listingAscending None) "x")
    /\
    storage.Name oi
      = getObjectNameString
          (base (Samples.viewAt 25 Samples.listingAscending None)) "x" /\
    blob.Length
      {| blob.BlobID := ""; blob.Length := 1; blob.Timestamp := 20 |}
      = storage.Size oi /\
    blob.Timestamp
      {| blob.BlobID := ""; blob.Length := 1; blob.Timestamp := 20 |}
      = storage.Created oi.
Proof.
  apply (GetMetadata_found_shape
           (Samples.viewAt 25 Samples.listingAscending None) "x").
  reflexivity.
Defined.

(** X9. When the iterator ends without error, the only errors of
    [GetMetadata] are NotFound itself and NotFound wrapped with the blob
    ID. *)
Theorem GetMetadata_fails_with_NotFound gcs b e :
  storage.final (listingFor gcs b) = None ->
  snd (GetMetadata gcs b) = Some e ->
  e = ErrBlobNotFound \/
  e = Wrapf ErrBlobNotFound "could not get version metadata for blob %s"
        [AStr b].
Proof.
  intros Hfin. unfold GetMetadata. rewrite getMetadata_unfold.
  unfold listOutcome. rewrite Hfin.
  destruct (_ <? _)%nat.
  all: destruct (map _ _) as [|r0 recs0] eqn:Hrecs;
    [cbn; intros [= <-]; by right|].
  all: destruct (last _) as [v|]; [destruct (IsDeleteMarker v)|];
    cbn; intros [= <-] || intros [=]; by left.
Qed.

Lemma GetMetadata_fails_with_NotFound_witness :
  ErrBlobNotFound = ErrBlobNotFound \/
  ErrBlobNotFound
  = Wrapf ErrBlobNotFound "could not get version metadata for blob %s"
      [AStr "x"].
Proof.
  apply (GetMetadata_fails_with_NotFound
           (Samples.viewAt 35 Samples.listingAscending None) "x").
  - reflexivity.
  - reflexivity.
Defined.

(** ** Blob IDs of listed records *)

(** X10. The blob ID of a record is the object's name without the whole
    queried name, namespace prefix and ID prefix alike: listing with ID
    prefix [prefix], the object of blob [prefix ++ rest] yields a record
    whose blob ID is [rest]. *)
Theorem listed_BlobID_lacks_queried_prefix gcs prefix rest oi :
  storage.Name oi = getObjectNameString (base gcs) (prefix +:+ rest) ->
  BlobID (getVersionMetadata gcs (getObjectNameString (base gcs) prefix) oi)
  = rest.
Proof.
  intros H. unfold BlobID, getVersionMetadata, toBlobID. cbn.
  rewrite H. unfold getObjectNameString.
  rewrite <- string_app_assoc. apply TrimPrefix_app.
Qed.

Lemma listed_BlobID_lacks_queried_prefix_witness :
  BlobID (getVersionMetadata (Samples.viewAt 100 [] None)
            (getObjectNameString (base (Samples.viewAt 100 [] None)) "a")
            (Samples.object "a1" 10 0 1))
  = "1".
Proof.
  apply (listed_BlobID_lacks_queried_prefix
           (Samples.viewAt 100 [] None) "a" "1" (Samples.object "a1" 10 0 1)).
  reflexivity.
Defined.

(** ** [ListBlobs] for every listing *)

Lemma newestAtUnlessDeleted_found_visible vs T v :
  newestAtUnlessDeleted vs T = (v, true) ->
  v ∈ vs /\ Timestamp v <= T /\ IsDeleteMarker v = false.
Proof.
  intros H. split; [by eapply newestAtUnlessDeleted_found|].
  unfold newestAtUnlessDeleted in H.
  destruct (last (getOlderThan vs T)) as [w|] eqn:E; [|done].
  inversion H; subst. apply last_Some_elem_of in E.
  pose proof (getOlderThan_Forall vs T) as Hall.
  rewrite Forall_forall in Hall. split; [by apply Hall|].
  by apply negb_true_iff.
Qed.

(** Through the loop of [ListBlobs]: the records accumulated come from
    the listing, and what was reported is the metadata of a listed object
    created at or before the horizon whose record is not a delete
    marker. *)
Lemma ListBlobs_loop_visible {St : Type} gcs query
    (cb : St -> blob.Metadata -> St * option error)
    (all : list storage.ObjectAttrs) fin :
  let fromListing v :=
    exists oi, oi ∈ all /\
               v = getVersionMetadata gcs (storage.Prefix query) oi in
  let visible (x : blob.Metadata * option error) :=
    exists oi,
      oi ∈ all /\
      fst x = Metadata (getVersionMetadata gcs (storage.Prefix query) oi) /\
      storage.Created oi <= pointInTime gcs /\
      IsDeleteMarker (getVersionMetadata gcs (storage.Prefix query) oi)
      = false in
  forall its previousID vs log s,
    (forall oi, oi ∈ its -> oi ∈ all) ->
    Forall fromListing vs -> Forall visible log ->
    forall previousID' vs' log' s' r,
      list_loop gcs query false (ListBlobs_callback gcs (traced cb))
        its fin (previousID, vs, (log, s))
      = ((previousID', vs', (log', s')), r) ->
      Forall fromListing vs' /\ Forall visible log'.
Proof.
  intros fromListing visible.
  assert (Hwin : forall vs v r,
            Forall fromListing vs ->
            newestAtUnlessDeleted vs (pointInTime gcs) = (v, true) ->
            visible (Metadata v, r)).
  { intros vs v r Hvs Hres.
    apply newestAtUnlessDeleted_found_visible in Hres as (Hin & Hle & Hd).
    rewrite Forall_forall in Hvs. destruct (Hvs _ Hin) as (oi & Hoi & ->).
    exists oi. by repeat split. }
  induction its as [|oi its IH];
    intros previousID vs log s Hsub Hvs Hlog previousID' vs' log' s' r Hrun.
  - cbn in Hrun. by destruct fin; inversion Hrun; subst.
  - cbn [list_loop andb] in Hrun.
    set (vm := getVersionMetadata gcs (storage.Prefix query) oi) in *.
    assert (Hvm : fromListing vm).
    { exists oi. split; [apply Hsub, list_elem_of_here|done]. }
    assert (Hsub' : forall oi0, oi0 ∈ its -> oi0 ∈ all).
    { intros oi0 H0. by apply Hsub, list_elem_of_further. }
    unfold ListBlobs_callback in Hrun at 1.
    destruct (negb (String.eqb (BlobID vm) previousID)).
    + destruct (newestAtUnlessDeleted vs (pointInTime gcs))
        as [v found] eqn:Hres.
      destruct found.
      * unfold traced in Hrun at 1.
        destruct (cb s (Metadata v)) as [s1 [err|]].
        -- inversion Hrun; subst. split; [done|].
           apply Forall_app. split; [done|].
           apply Forall_singleton. by eapply Hwin.
        -- eapply (IH _ _ _ _ Hsub'); [| |exact Hrun].
           ++ by apply Forall_singleton.
           ++ apply Forall_app. split; [done|].
              apply Forall_singleton. by eapply Hwin.
      * eapply (IH _ _ _ _ Hsub'); [| |exact Hrun]; [|done].
        by apply Forall_singleton.
    + eapply (IH _ _ _ _ Hsub'); [| |exact Hrun]; [|done].
      apply Forall_app. split; [done|]. by apply Forall_singleton.
Qed.

(** X11. Whatever the listing and whatever the callback answers, every
    metadata [ListBlobs] hands to the callback is that of an object of the
    listing that was created at or before the horizon and whose record is
    not a delete marker. *)
Theorem ListBlobs_reports_only_visible {St : Type} gcs prefix
    (cb : St -> blob.Metadata -> St * option error) s m r :
  let q := getObjectNameString (base gcs) prefix in
  (m, r) ∈ fst (fst (ListBlobs gcs prefix (traced cb) ([], s))) ->
  exists oi,
    oi ∈ storage.items (listingFor gcs prefix) /\
    m = Metadata (getVersionMetadata gcs q oi) /\
    storage.Created oi <= pointInTime gcs /\
    IsDeleteMarker (getVersionMetadata gcs q oi) = false.
Proof.
  intros q. unfold ListBlobs, listBlobVersions, list_.
  fold (listingFor gcs prefix). fold q.
  set (query := {| storage.Prefix := q; storage.Versions := true |}).
  destruct (list_loop _ _ _ _ _ _ _) as [[[p vs] [log1 s1]] r1] eqn:Hrun.
  apply (ListBlobs_loop_visible gcs query cb
           (storage.items (listingFor gcs prefix))) in Hrun
    as [Hvs Hlog]; [|done|constructor|constructor].
  cbn [storage.Prefix query] in Hvs, Hlog.
  assert (Hin : forall log, (m, r) ∈ log ->
            Forall (fun x : blob.Metadata * option error =>
                      exists oi,
                        oi ∈ storage.items (listingFor gcs prefix) /\
                        fst x = Metadata (getVersionMetadata gcs q oi) /\
                        storage.Created oi <= pointInTime gcs /\
                        IsDeleteMarker (getVersionMetadata gcs q oi) = false)
                   log ->
            exists oi,
              oi ∈ storage.items (listingFor gcs prefix) /\
              m = Metadata (getVersionMetadata gcs q oi) /\
              storage.Created oi <= pointInTime gcs /\
              IsDeleteMarker (getVersionMetadata gcs q oi) = false).
  { intros log Hm Hall. rewrite Forall_forall in Hall.
    exact (Hall _ Hm). }
  destruct r1 as [err|]; [cbn; intros Hm; by apply (Hin log1)|].
  destruct (newestAtUnlessDeleted vs (pointInTime gcs)) as [v found] eqn:Hres.
  destruct found; [|cbn; intros Hm; by apply (Hin log1)].
  unfold traced. destruct (cb s1 (Metadata v)) as [s2 r2]. cbn.
  intros [Hm|Hm]%elem_of_app; [by apply (Hin log1)|].
  apply list_elem_of_singleton in Hm. inversion Hm; subst.
  apply newestAtUnlessDeleted_found_visible in Hres as (Hv & Hle & Hd).
  rewrite Forall_forall in Hvs. destruct (Hvs _ Hv) as (oi & Hoi & ->).
  exists oi. by repeat split.
Qed.

Lemma ListBlobs_reports_only_visible_witness :
  exists oi,
    oi ∈ storage.items
           (listingFor (Samples.viewAt 100 Samples.listingC None) "a") /\
    {| blob.BlobID := "1"; blob.Length := 1; blob.Timestamp := 10 |}
    = Metadata
        (getVersionMetadata (Samples.viewAt 100 Samples.listingC None)
           (getObjectNameString
              (base (Samples.viewAt 100 Samples.listingC None)) "a")
           oi) /\
    storage.Created oi
    <= pointInTime (Samples.viewAt 100 Samples.listingC None) /\
    IsDeleteMarker
      (getVersionMetadata (Samples.viewAt 100 Samples.listingC None)
         (getObjectNameString
            (base (Samples.viewAt 100 Samples.listingC None)) "a")
         oi)
    = false.
Proof.
  apply (ListBlobs_reports_only_visible
           (Samples.viewAt 100 Samples.listingC None) "a"
           Samples.accept tt
           {| blob.BlobID := "1"; blob.Length := 1; blob.Timestamp := 10 |}
           None).
  apply list_elem_of_here.
Defined.

(** A sequence starts a run of its own. *)
Lemma runs_cons v rest :
  exists g gs, runs (v :: rest) = (v :: g) :: gs.
Proof.
  cbn. destruct (runs rest) as [|[|w g] gs]; [by exists [], []..|].
  destruct (String.eqb (BlobID v) (BlobID w)); eauto.
Qed.

(** Records of one blob followed by nothing or by a record of another blob
    are a run. *)
Lemma runs_app_same vs rest p :
  vs <> [] ->
  Forall (fun v => BlobID v = p) vs ->
  match rest with [] => True | w :: _ => BlobID w <> p end ->
  runs (vs ++ rest) = vs :: runs rest.
Proof.
  intros Hne Hall Hrest. induction vs as [|v vs IH]; [done|].
  apply Forall_cons in Hall as [Hv Hall].
  destruct vs as [|v2 vs].
  - cbn [app]. destruct rest as [|w rest]; [done|].
    destruct (runs_cons w rest) as (g & gs & Hw).
    change (runs (v :: w :: rest))
      with (match runs (w :: rest) with
            | (w0 :: g0) :: gs0 =>
                if String.eqb (BlobID v) (BlobID w0)
                then (v :: w0 :: g0) :: gs0
                else [v] :: (w0 :: g0) :: gs0
            | _ => [[v]]
            end).
    rewrite Hw.
    assert (String.eqb (BlobID v) (BlobID w) = false) as ->
      by (apply String.eqb_neq; congruence).
    done.
  - change (runs ((v :: v2 :: vs) ++ rest))
      with (match runs ((v2 :: vs) ++ rest) with
            | (w0 :: g0) :: gs0 =>
                if String.eqb (BlobID v) (BlobID w0)
                then (v :: w0 :: g0) :: gs0
                else [v] :: (w0 :: g0) :: gs0
            | _ => [[v]]
            end).
    rewrite IH by done.
    apply Forall_cons in Hall as [Hv2 _].
    assert (String.eqb (BlobID v) (BlobID v2) = true) as ->
      by (apply String.eqb_eq; congruence).
    done.
Qed.

Lemma winners_cons T g gs :
  winners T (g :: gs)
  = match winner T g with
    | Some m => m :: winners T gs
    | None => winners T gs
    end.
Proof. reflexivity. Qed.

(** The loop of [ListBlobs] with a callback that never fails: what it has
    reported are the winners of the runs it has completed, and [vs] is the
    run it is still accumulating. *)
Lemma ListBlobs_loop_runs {St : Type} gcs query
    (cb : St -> blob.Metadata -> St * option error) fin :
  accepts cb ->
  forall its previousID vs log s,
    Forall (fun v => BlobID v = previousID) vs ->
    forall previousID' vs' log' s' r,
      list_loop gcs query false (ListBlobs_callback gcs (traced cb))
        its fin (previousID, vs, (log, s))
      = ((previousID', vs', (log', s')), r) ->
      r = listOutcome false (storage.Prefix query) its fin /\
      exists completed,
        runs (vs ++ map (getVersionMetadata gcs (storage.Prefix query)) its)
        = completed ++ match vs' with [] => [] | _ => [vs'] end /\
        log' = log ++ map (fun m => (m, None))
                          (winners (pointInTime gcs) completed) /\
        s' = handed cb s (winners (pointInTime gcs) completed) /\
        (vs' = [] -> vs = [] /\ its = []).
Proof.
  intros Hc. induction its as [|oi its IH];
    intros previousID vs log s Hvs previousID' vs' log' s' r Hrun.
  - cbn in Hrun.
    assert (previousID' = previousID /\ vs' = vs /\ log' = log /\ s' = s
            /\ r = listOutcome false (storage.Prefix query) [] fin)
      as (-> & -> & -> & -> & ->).
    { unfold listOutcome. cbn. by destruct fin; inversion Hrun. }
    split; [done|]. exists []. rewrite !app_nil_r. cbn.
    split; [|done]. destruct vs as [|v vs]; [done|].
    rewrite <- (app_nil_r (v :: vs)) at 1.
    by rewrite (runs_app_same _ [] previousID).
  - cbn [list_loop andb] in Hrun. cbn [map].
    set (vm := getVersionMetadata gcs (storage.Prefix query) oi) in *.
    assert (Hout : listOutcome false (storage.Prefix query) (oi :: its) fin
                   = listOutcome false (storage.Prefix query) its fin).
    { unfold listOutcome, reached. by rewrite !Nat.ltb_irrefl. }
    rewrite Hout. unfold ListBlobs_callback in Hrun at 1.
    destruct (String.eqb (BlobID vm) previousID) eqn:E; cbn [negb] in Hrun.
    + apply String.eqb_eq in E.
      apply IH in Hrun as (Hr & completed & Hruns & Hlog & Hs & Hnil).
      * split; [done|]. exists completed.
        rewrite <- app_assoc in Hruns.
        split; [done|]. split; [done|]. split; [done|].
        intros H0. destruct (Hnil H0) as [H1 _].
        by apply app_eq_nil in H1 as [_ ?].
      * apply Forall_app. split; [done|]. by apply Forall_singleton.
    + apply String.eqb_neq in E.
      destruct vs as [|v0 vs0] eqn:Hvs0.
      * rewrite newestAtUnlessDeleted_nil in Hrun.
        apply IH in Hrun as (Hr & completed & Hruns & Hlog & Hs & Hnil);
          [|by apply Forall_singleton].
        split; [done|]. exists completed.
        split; [done|]. split; [done|]. split; [done|].
        intros H0. by destruct (Hnil H0).
      * rewrite <- Hvs0 in *.
        assert (Hsplit : runs (vs ++ vm :: map (getVersionMetadata gcs
                                  (storage.Prefix query)) its)
                         = vs :: runs (vm :: map (getVersionMetadata gcs
                                  (storage.Prefix query)) its)).
        { apply (runs_app_same _ _ previousID); [by rewrite Hvs0|done|done]. }
        rewrite Hsplit.
        destruct (newestAtUnlessDeleted vs (pointInTime gcs))
          as [v found] eqn:Hres.
        destruct found.
        -- assert (Hw : winner (pointInTime gcs) vs = Some (Metadata v))
             by (unfold winner; by rewrite Hres).
           unfold traced in Hrun at 1.
           specialize (Hc s (Metadata v)).
           destruct (cb s (Metadata v)) as [s1 r1] eqn:Hcb.
           cbn in Hc. subst r1.
           apply IH in Hrun as (Hr & completed & Hruns & Hlog & Hs & Hnil);
             [|by apply Forall_singleton].
           split; [done|]. exists (vs :: completed).
           cbn [app] in Hruns. rewrite Hruns. split; [done|].
           rewrite winners_cons, Hw. cbn [map].
           rewrite handed_cons, Hcb. cbn [fst].
           rewrite Hlog, Hs, <- app_assoc.
           split; [done|]. split; [done|].
           intros H0. by destruct (Hnil H0).
        -- assert (Hw : winner (pointInTime gcs) vs = None)
             by (unfold winner; by rewrite Hres).
           apply IH in Hrun as (Hr & completed & Hruns & Hlog & Hs & Hnil);
             [|by apply Forall_singleton].
           split; [done|]. exists (vs :: completed).
           cbn [app] in Hruns. rewrite Hruns. split; [done|].
           rewrite winners_cons, Hw.
           split; [done|]. split; [done|].
           intros H0. by destruct (Hnil H0).
Qed.

Lemma winners_app T gs hs :
  winners T (gs ++ hs) = winners T gs ++ winners T hs.
Proof. unfold winners. apply omap_app. Qed.

(** ** Where a callback failure of [ListBlobs] happens *)







(** The two places of a failure side by side: the callback refuses the
    first blob of two and the error comes back wrapped twice, with the
    name of the object that opened the next run; it refuses the only blob
    and the error comes back as it is. *)
Lemma ListBlobs_callback_error_places_example :
  let e := Errorf "refused" [] in
  snd (ListBlobs
         (Samples.viewAt 100
            [Samples.object "a1" 10 0 1; Samples.object "a2" 20 0 1] None)
         "a" (traced Samples.refuse) ([], tt))
  = Some (Wrapf (Wrapf e "callback failed for %q" [AStr "a2"])
            "could not list blob versions at time %s" [ATime 100]) /\
  snd (ListBlobs (Samples.viewAt 100 [Samples.object "a1" 10 0 1] None)
         "a" (traced Samples.refuse) ([], tt))
  = Some e.
Proof. split; reflexivity. Qed.

(** X12. With a callback that never fails and an iterator that ends
    without error, [ListBlobs] reports exactly the winners of the runs of
    the listing: it cuts the records into the maximal runs of adjacent
    records with the same blob ID, resolves each run on its own, and hands
    the callback the metadata found, run by run in listing order. It
    returns nil. *)
Theorem ListBlobs_reports_run_winners {St : Type} gcs prefix
    (cb : St -> blob.Metadata -> St * option error) s :
  accepts cb ->
  storage.final (listingFor gcs prefix) = None ->
  let q := getObjectNameString (base gcs) prefix in
  let recs := map (getVersionMetadata gcs q)
                  (storage.items (listingFor gcs prefix)) in
  let reported := winners (pointInTime gcs) (runs recs) in
  ListBlobs gcs prefix (traced cb) ([], s)
  = ((map (fun m => (m, None)) reported, handed cb s reported), None).
Proof.
  intros Hc Hfin q recs reported.
  unfold ListBlobs, listBlobVersions, list_.
  fold (listingFor gcs prefix). fold q. rewrite Hfin.
  set (query := {| storage.Prefix := q; storage.Versions := true |}).
  destruct (list_loop _ _ _ _ _ _ _) as [[[p vs] [log1 s1]] r1] eqn:Hrun.
  apply (ListBlobs_loop_runs gcs query cb None Hc) in Hrun
    as (-> & completed & Hruns & -> & -> & _); [|constructor].
  cbn [app storage.Prefix query] in Hruns. fold recs in Hruns.
  assert (listOutcome false (storage.Prefix query)
            (storage.items (listingFor gcs prefix)) None = None) as ->.
  { unfold listOutcome. by destruct (_ <? _)%nat. }
  unfold reported. rewrite Hruns, winners_app.
  destruct vs as [|v0 vs0] eqn:Hvs.
  - rewrite newestAtUnlessDeleted_nil. cbn. by rewrite !app_nil_r.
  - rewrite <- Hvs. rewrite winners_cons. unfold winner.
    destruct (newestAtUnlessDeleted vs (pointInTime gcs)) as [v found].
    destruct found.
    + unfold traced.
      specialize (Hc (handed cb s (winners (pointInTime gcs) completed))
                    (Metadata v)).
      destruct (cb _ (Metadata v)) as [s2 r2] eqn:Hcb. cbn in Hc. subst r2.
      rewrite map_app, handed_app. cbn. by rewrite Hcb.
    + cbn. by rewrite !app_nil_r.
Qed.

Lemma ListBlobs_reports_run_winners_witness :
  ListBlobs (Samples.viewAt 100 Samples.listingC None) "a"
    (traced Samples.accept) ([], tt)
  = ((map (fun m => (m, None))
        (winners 100
           (runs (map (getVersionMetadata
                         (Samples.viewAt 100 Samples.listingC None) "a")
                      Samples.listingC))),
      handed Samples.accept tt
        (winners 100
           (runs (map (getVersionMetadata
                         (Samples.viewAt 100 Samples.listingC None) "a")
                      Samples.listingC)))),
     None).
Proof.
  apply (ListBlobs_reports_run_winners
           (Samples.viewAt 100 Samples.listingC None) "a" Samples.accept tt).
  - intros s a. reflexivity.
  - reflexivity.
Defined.

(** X13. When the iterator ends with an error, [ListBlobs] returns that
    error wrapped with the listing prefix and then with the horizon, and
    the run it was accumulating is not reported: with a callback that
    never fails, the callback has been handed the winners of all runs of
    the records listed so far but the last. *)
Theorem ListBlobs_iterator_error {St : Type} gcs prefix
    (cb : St -> blob.Metadata -> St * option error) s err :
  accepts cb ->
  storage.final (listingFor gcs prefix) = Some err ->
  let q := getObjectNameString (base gcs) prefix in
  let recs := map (getVersionMetadata gcs q)
                  (storage.items (listingFor gcs prefix)) in
  let reported := winners (pointInTime gcs) (removelast (runs recs)) in
  ListBlobs gcs prefix (traced cb) ([], s)
  = ((map (fun m => (m, None)) reported, handed cb s reported),
     Some (Wrapf (Wrapf err "could not list objects with prefix %q"
                    [AStr q])
             "could not list blob versions at time %s"
             [ATime (pointInTime gcs)])).
Proof.
  intros Hc Hfin q recs reported.
  unfold ListBlobs, listBlobVersions, list_.
  fold (listingFor gcs prefix). fold q. rewrite Hfin.
  set (query := {| storage.Prefix := q; storage.Versions := true |}).
  destruct (list_loop _ _ _ _ _ _ _) as [[[p vs] [log1 s1]] r1] eqn:Hrun.
  apply (ListBlobs_loop_runs gcs query cb (Some err) Hc) in Hrun
    as (-> & completed & Hruns & -> & -> & Hnil); [|constructor].
  cbn [app storage.Prefix query] in Hruns. fold recs in Hruns.
  assert (listOutcome false (storage.Prefix query)
            (storage.items (listingFor gcs prefix)) (Some err)
          = Some (Wrapf err "could not list objects with prefix %q"
                    [AStr q])) as ->.
  { unfold listOutcome, reached. by rewrite Nat.ltb_irrefl. }
  assert (removelast (runs recs) = completed) as Hdone.
  { rewrite Hruns. destruct vs as [|v0 vs0].
    - destruct (Hnil eq_refl) as [_ Hits]. unfold recs in Hruns.
      rewrite Hits in Hruns. cbn in Hruns. by destruct completed.
    - apply removelast_last. }
  unfold reported. by rewrite Hdone.
Qed.

Lemma ListBlobs_iterator_error_witness :
  ListBlobs
    (Samples.viewAt 100 Samples.listingC (Some (ClientError "unavailable")))
    "a" (traced Samples.accept) ([], tt)
  = ((map (fun m => (m, None))
        (winners 100
           (removelast
              (runs (map (getVersionMetadata
                            (Samples.viewAt 100 Samples.listingC None) "a")
                         Samples.listingC)))),
      handed Samples.accept tt
        (winners 100
           (removelast
              (runs (map (getVersionMetadata
                            (Samples.viewAt 100 Samples.listingC None) "a")
                         Samples.listingC))))),
     Some (Wrapf (Wrapf (ClientError "unavailable")
                    "could not list objects with prefix %q" [AStr "a"])
             "could not list blob versions at time %s" [ATime 100])).
Proof.
  apply (ListBlobs_iterator_error
           (Samples.viewAt 100 Samples.listingC
              (Some (ClientError "unavailable")))
           "a" Samples.accept tt (ClientError "unavailable")).
  - intros s a. reflexivity.
  - reflexivity.
Defined.

(** ** [GetBlob] *)

(** X14. [GetBlob] reads a payload only when [getMetadata] resolves a
    version, and then it reads the generation of an object of the listing
    that is named exactly as the blob and was created at or before the
    horizon. When [getMetadata] fails, [GetBlob] returns that error wrapped
    and the reader is not consulted. *)
Theorem GetBlob_reads_resolved_generation {Bytes : Type}
    (reader : gcsStorage -> blob.ID -> string -> Z -> Z
              -> Bytes * option error)
    (empty : Bytes) gcs b offset length :
  (forall v,
     getMetadata gcs b = (v, None) ->
     exists oi,
       oi ∈ storage.items (listingFor gcs b) /\
       storage.Name oi = getObjectNameString (base gcs) b /\
       storage.Created oi <= pointInTime gcs /\
       GetBlob reader empty gcs b offset length
       = reader (base gcs) b (FormatInt10 (storage.Generation oi))
           offset length) /\
  (forall v err,
     getMetadata gcs b = (v, Some err) ->
     GetBlob reader empty gcs b offset length
     = (empty, Some (Wrapf err "getting metadata" []))).
Proof.
  split.
  - intros v Hres. unfold GetBlob. rewrite Hres.
    rewrite getMetadata_unfold in Hres.
    set (q := getObjectNameString (base gcs) b) in *.
    destruct (listOutcome true q _ _); [done|].
    destruct (map _ _) as [|r0 recs0] eqn:Hrecs; [done|].
    rewrite <- Hrecs in Hres.
    destruct (last _) as [w|] eqn:E; [|done].
    destruct (IsDeleteMarker w); [done|]. inversion Hres; subst w.
    apply last_Some_elem_of, list_elem_of_filter in E as [Hle Hin].
    apply list_elem_of_fmap in Hin as (oi & -> & Hoi).
    apply leadingExact_elem in Hoi as [Hoi Hname].
    exists oi. by repeat split.
  - intros v err Hres. unfold GetBlob. by rewrite Hres.
Qed.

Lemma GetBlob_reads_resolved_generation_witness :
  exists oi,
    oi ∈ storage.items
           (listingFor (Samples.viewAt 25 Samples.listingAscending None) "x")
    /\
    storage.Name oi
    = getObjectNameString
        (base (Samples.viewAt 25 Samples.listingAscending None)) "x" /\
    storage.Created oi
    <= pointInTime (Samples.viewAt 25 Samples.listingAscending None) /\
    GetBlob (fun _ _ version _ _ => (version, None)) ""
      (Samples.viewAt 25 Samples.listingAscending None) "x" 0 1
    = (FormatInt10 (storage.Generation oi), None).
Proof.
  apply (proj1 (GetBlob_reads_resolved_generation
                  (fun _ _ version _ _ => (version, None)) ""
                  (Samples.viewAt 25 Samples.listingAscending None)
                  "x" 0 1)
           (getVersionMetadata
              (Samples.viewAt 25 Samples.listingAscending None) "x"
              (Samples.object "x" 20 0 2))).
  reflexivity.
Defined.

(** ** Construction, the failures *)

(** X15. With a point-in-time requested in the options,
    [maybePointInTimeStore] panics when its [pointInTime] argument is nil,
    since it dereferences it; and when the bucket's attributes cannot be
    read it returns no storage and that error, wrapped with the bucket's
    name. *)
Theorem maybePointInTimeStore_failures gcs pit :
  PointInTime gcs = Some pit -> pit <> time.zero ->
  maybePointInTimeStore gcs None = None /\
  (forall t err,
     storage.Attrs (bucket gcs) = inr err ->
     maybePointInTimeStore gcs (Some t)
     = Some (None,
             Some (Wrapf err
                     "could not get determine if bucket '%s' supports versioning"
                     [AStr (BucketName gcs)]))).
Proof. apply maybePointInTimeStore_other_outcomes. Qed.

Lemma maybePointInTimeStore_failures_witness :
  maybePointInTimeStore (Samples.storageOf (Some 25) true) None = None.
Proof.
  apply (proj1 (maybePointInTimeStore_failures
                  (Samples.storageOf (Some 25) true) 25
                  eq_refl ltac:(discriminate))).
Defined.

(** ** Slices share their array *)

(** X16. On a slice that lies within the memory, [getOlderThan] does not
    panic and leaves the memory as it is; the slice it returns starts at
    the same cell as [vs], has the capacity of [vs] and is not longer, and
    shows what [getOlderThan] keeps of the sequence [vs] shows. It shares
    the storage of [vs]: a store through it is read back through [vs]. *)
Theorem slices_getOlderThan_shares_storage m vs t :
  slices.valid m vs ->
  exists vs',
    slices.getOlderThan vs t m = Some (vs', m) /\
    slices.ptr vs' = slices.ptr vs /\
    slices.cap vs' = slices.cap vs /\
    (slices.len vs' <= slices.len vs)%nat /\
    slices.view m vs' = getOlderThan (slices.view m vs) t /\
    forall i v m',
      slices.store vs' i v m = Some (tt, m') ->
      slices.view m' vs !! i = Some v.
Proof.
  intros Hv. destruct (slices_getOlderThan m vs t Hv)
    as (vs' & Hrun & Hptr & Hlen & Hview).
  exists vs'. split; [done|]. split; [done|].
  assert (Hcap : slices.cap vs' = slices.cap vs).
  { unfold slices.getOlderThan in Hrun.
    rewrite (slices_getOlderThan_from m vs t Hv) in Hrun by lia.
    by inversion Hrun. }
  assert (Hle : (slices.len vs' <= slices.len vs)%nat).
  { rewrite Hlen. destruct (getOlderThan_prefix (slices.view m vs) t)
      as [k Hk].
    apply (f_equal length) in Hk. rewrite length_app in Hk.
    unfold slices.view in Hk at 1. rewrite length_take in Hk. lia. }
  split; [done|]. split; [done|]. split; [done|].
  intros i v m'. unfold slices.store.
  destruct (Nat.ltb_spec i (slices.len vs')) as [Hi|]; [|done].
  destruct (Nat.ltb_spec (slices.ptr vs' + i) (length m)) as [Hm|]; [|done].
  cbn. intros [= <-]. unfold slices.view.
  rewrite lookup_take_lt by lia. rewrite lookup_drop, <- Hptr.
  unfold slices.memory in *. by apply list_lookup_insert_eq.
Qed.

Lemma slices_getOlderThan_shares_storage_witness :
  exists vs',
    slices.getOlderThan
      {| slices.ptr := 0; slices.len := 3; slices.cap := 3 |} 25
      Samples.historyAscending
    = Some (vs', Samples.historyAscending) /\
    slices.ptr vs' = 0%nat /\
    slices.cap vs' = 3%nat /\
    (slices.len vs' <= 3)%nat /\
    slices.view Samples.historyAscending vs'
    = getOlderThan
        (slices.view Samples.historyAscending
           {| slices.ptr := 0; slices.len := 3; slices.cap := 3 |}) 25 /\
    forall i v m',
      slices.store vs' i v Samples.historyAscending = Some (tt, m') ->
      slices.view m' {| slices.ptr := 0; slices.len := 3; slices.cap := 3 |}
        !! i = Some v.
Proof.
  apply (slices_getOlderThan_shares_storage Samples.historyAscending
           {| slices.ptr := 0; slices.len := 3; slices.cap := 3 |} 25).
  split; cbn; lia.
Defined.

(** * The filesystem lister (dir/lister.go) *)

(** The loop of [List] over entries whose conversion succeeds: it
    converts all but the ones named [".."], and appends the directories to
    [Directories] and the others to [Files], in order. *)
Lemma dir_List_loop_success FileModeToType populate path :
  forall entries listing,
    Forall (fun fi =>
              snd (populate (dir.newEntry FileModeToType path fi) fi) = None)
           entries ->
    let converted :=
      map (fun fi => fst (populate (dir.newEntry FileModeToType path fi) fi))
          (filter (fun fi => dir.Name fi <> "..") entries) in
    dir.List_loop FileModeToType populate path entries listing
    = ({| dir.Directories :=
            dir.Directories listing
              ++ filter (fun e => dir.EType e = dir.EntryTypeDirectory)
                        converted;
          dir.Files :=
            dir.Files listing
              ++ filter (fun e => dir.EType e <> dir.EntryTypeDirectory)
                        converted |},
       None).
Proof.
  induction entries as [|fi entries IH]; intros listing Hall.
  - cbn. rewrite !app_nil_r. by destruct listing.
  - apply Forall_cons in Hall as [Hp Hall]. cbn [dir.List_loop].
    destruct (String.eqb (dir.Name fi) "..") eqn:E.
    + apply String.eqb_eq in E. rewrite IH by done.
      by rewrite filter_cons_False by (intros H; by apply H).
    + apply String.eqb_neq in E.
      rewrite filter_cons_True by done. cbn [map].
      unfold dir.entryFromFileSystemInfo.
      destruct (populate _ fi) as [e r] eqn:Hpop. cbn in Hp. subst r.
      cbn [fst].
      destruct (dir.EType e) eqn:Ht; cbn [dir.EntryType_eqb];
        rewrite IH by done; cbn [dir.Directories dir.Files].
      all: try (rewrite filter_cons_False by (rewrite Ht; by intros ?);
                rewrite filter_cons_True by (by rewrite Ht);
                by rewrite <- app_assoc).
      rewrite filter_cons_True by done.
      rewrite filter_cons_False by (rewrite Ht; by intros H).
      by rewrite <- app_assoc.
Qed.

Lemma dir_List_loop_app FileModeToType populate path before rest listing :
  Forall (fun fi =>
            snd (populate (dir.newEntry FileModeToType path fi) fi) = None)
         before ->
  dir.List_loop FileModeToType populate path (before ++ rest) listing
  = dir.List_loop FileModeToType populate path rest
      (fst (dir.List_loop FileModeToType populate path before listing)).
Proof.
  revert listing. induction before as [|fi before IH]; intros listing Hall.
  - done.
  - apply Forall_cons in Hall as [Hp Hall]. cbn [app dir.List_loop].
    destruct (String.eqb (dir.Name fi) ".."); [by apply IH|].
    unfold dir.entryFromFileSystemInfo.
    destruct (populate _ fi) as [e r] eqn:Hpop. cbn in Hp. subst r.
    destruct (dir.EntryType_eqb _ _); by apply IH.
Qed.

(** X17. When the directory can be read and every conversion succeeds,
    [List] converts every entry but the ones named [".."] (an entry named
    ["."] is converted like any other), and returns the converted entries
    split in two: the directories in [Directories], all the others in
    [Files], each in the order of the directory. *)
Theorem dir_List_splits_entries ReadDir FileModeToType populate path
    entries :
  ReadDir path = inl entries ->
  Forall (fun fi =>
            snd (populate (dir.newEntry FileModeToType path fi) fi) = None)
         entries ->
  let converted :=
    map (fun fi => fst (populate (dir.newEntry FileModeToType path fi) fi))
        (filter (fun fi => dir.Name fi <> "..") entries) in
  dir.List ReadDir FileModeToType populate path
  = ({| dir.Directories :=
          filter (fun e => dir.EType e = dir.EntryTypeDirectory) converted;
        dir.Files :=
          filter (fun e => dir.EType e <> dir.EntryTypeDirectory) converted |},
     None).
Proof.
  intros Hread Hall converted. unfold dir.List. rewrite Hread.
  by rewrite dir_List_loop_success.
Qed.

Lemma dir_List_splits_entries_witness :
  dir.List (fun _ => inl dir.sampleEntries) dir.sampleFileModeToType
    dir.samplePopulate "/d"
  = ({| dir.Directories :=
          filter (fun e => dir.EType e = dir.EntryTypeDirectory)
            (map (fun fi =>
                    fst (dir.samplePopulate
                           (dir.newEntry dir.sampleFileModeToType "/d" fi)
                           fi))
                 (filter (fun fi => dir.Name fi <> "..") dir.sampleEntries));
        dir.Files :=
          filter (fun e => dir.EType e <> dir.EntryTypeDirectory)
            (map (fun fi =>
                    fst (dir.samplePopulate
                           (dir.newEntry dir.sampleFileModeToType "/d" fi)
                           fi))
                 (filter (fun fi => dir.Name fi <> "..") dir.sampleEntries))
     |},
     None).
Proof.
  apply (dir_List_splits_entries (fun _ => inl dir.sampleEntries)
           dir.sampleFileModeToType dir.samplePopulate "/d"
           dir.sampleEntries).
  - reflexivity.
  - repeat constructor.
Defined.

(** On the sample directory the entry named ["."] is listed, the one
    named [".."] is not. *)
Lemma dir_List_sample :
  map dir.EName
    (dir.Directories
       (fst (dir.List (fun _ => inl dir.sampleEntries)
               dir.sampleFileModeToType dir.samplePopulate "/d")))
  = ["."; "sub"] /\
  map dir.EName
    (dir.Files
       (fst (dir.List (fun _ => inl dir.sampleEntries)
               dir.sampleFileModeToType dir.samplePopulate "/d")))
  = ["a.txt"].
Proof. split; reflexivity. Qed.

(** X18. [List] stops at the first entry whose conversion fails: it
    returns that error together with the listing of the entries before it,
    and converts nothing after it. When the directory cannot be read it
    returns the error of the read and an empty listing. *)
Theorem dir_List_stops_at_first_failure ReadDir FileModeToType populate
    path :
  (forall before fi after e err,
     ReadDir path = inl (before ++ fi :: after) ->
     Forall (fun fi =>
               snd (populate (dir.newEntry FileModeToType path fi) fi)
               = None)
            before ->
     dir.Name fi <> ".." ->
     populate (dir.newEntry FileModeToType path fi) fi = (e, Some err) ->
     dir.List ReadDir FileModeToType populate path
     = (fst (dir.List (fun _ => inl before) FileModeToType populate path),
        Some err)) /\
  (forall err,
     ReadDir path = inr err ->
     dir.List ReadDir FileModeToType populate path
     = ({| dir.Directories := []; dir.Files := [] |}, Some err)).
Proof.
  split.
  - intros before fi after e err Hread Hall Hname Hpop.
    unfold dir.List. rewrite Hread, dir_List_loop_app by done.
    cbn [dir.List_loop]. apply String.eqb_neq in Hname. rewrite Hname.
    unfold dir.entryFromFileSystemInfo. by rewrite Hpop.
  - intros err Hread. unfold dir.List. by rewrite Hread.
Qed.

Lemma dir_List_stops_at_first_failure_witness :
  dir.List (fun _ => inl dir.sampleEntries) dir.sampleFileModeToType
    dir.failingPopulate "/d"
  = (fst (dir.List
            (fun _ => inl [ {| dir.Name := "."; dir.Size := 0;
                               dir.Mode := 2147484141; dir.ModTime := 1 |};
                            {| dir.Name := ".."; dir.Size := 0;
                               dir.Mode := 2147484141; dir.ModTime := 1 |} ])
            dir.sampleFileModeToType dir.failingPopulate "/d"),
     Some (ClientError "no details")).
Proof.
  apply (proj1 (dir_List_stops_at_first_failure
                  (fun _ => inl dir.sampleEntries) dir.sampleFileModeToType
                  dir.failingPopulate "/d")
           [ {| dir.Name := "."; dir.Size := 0;
                dir.Mode := 2147484141; dir.ModTime := 1 |};
             {| dir.Name := ".."; dir.Size := 0;
                dir.Mode := 2147484141; dir.ModTime := 1 |} ]
           {| dir.Name := "a.txt"; dir.Size := 7; dir.Mode := 420;
              dir.ModTime := 2 |}
           [ {| dir.Name := "sub"; dir.Size := 0; dir.Mode := 2147484141;
                dir.ModTime := 3 |} ]
           (dir.newEntry dir.sampleFileModeToType "/d"
              {| dir.Name := "a.txt"; dir.Size := 7; dir.Mode := 420;
                 dir.ModTime := 2 |})
           (ClientError "no details")).
  - reflexivity.
  - repeat constructor.
  - discriminate.
  - reflexivity.
Defined.

Lemma Perm_bounds m : 0 <= dir.Perm m <= 511.
Proof.
  unfold dir.Perm.
  assert (H : Z.land m 511 = m mod 2 ^ 9).
  { change 511 with (Z.ones 9). apply Z.land_ones. lia. }
  rewrite H. pose proof (Z.mod_pos_bound m (2 ^ 9) ltac:(lia)). lia.
Qed.

(** X19. The entry built for a file-system entry has its permission bits
    as mode: a number from 0 to 511, which the conversion to a 16-bit
    integer leaves as it is. Its size is the size of the file when its type
    is a file, and 0 for every other type. *)
Theorem newEntry_mode_and_size FileModeToType parentDir fi :
  let e := dir.newEntry FileModeToType parentDir fi in
  dir.EMode e = Z.land (dir.Mode fi) 511 /\
  0 <= dir.EMode e <= 511 /\
  dir.EType e = FileModeToType (dir.Mode fi) /\
  dir.ESize e
  = (if decide (dir.EType e = dir.EntryTypeFile) then dir.Size fi else 0).
Proof.
  pose proof (Perm_bounds (dir.Mode fi)) as Hb.
  assert (Hm : dir.int16 (dir.Perm (dir.Mode fi)) = dir.Perm (dir.Mode fi)).
  { unfold dir.int16. rewrite Z.mod_small by lia. lia. }
  cbv zeta. unfold dir.newEntry. cbn [dir.EType].
  destruct (FileModeToType (dir.Mode fi)) eqn:Ht;
    cbn [dir.EntryType_eqb dir.EMode dir.EType dir.ESize];
    rewrite Hm, ?Ht; repeat split; try done; try lia.
Qed.

(** * Removing vault items (cli/command_vault_ls.go) *)

Lemma removeVaultItem_loop_log {V : Type}
    (Remove : V -> string -> V * option error) :
  forall items log vault log' vault' r,
    cli.removeVaultItem_loop (traced Remove) items (log, vault)
    = ((log', vault'), r) ->
    exists new,
      log' = log ++ new /\
      map fst new `prefix_of` items /\
      match r with
      | None => map fst new = items /\ allAccepted new
      | Some err => exists v, failedLast new v err
      end.
Proof.
  induction items as [|v items IH]; intros log vault log' vault' r Hrun.
  - cbn in Hrun. inversion Hrun; subst. exists []. rewrite app_nil_r.
    repeat split; [done|constructor].
  - cbn [cli.removeVaultItem_loop] in Hrun. unfold traced in Hrun at 1.
    destruct (Remove vault v) as [vault1 [err|]].
    + inversion Hrun; subst. exists [(v, Some err)]. split; [done|].
      split; [by apply prefix_cons, prefix_nil|].
      exists v, []. split; [done|constructor].
    + apply IH in Hrun as (new & -> & Hpre & Hr).
      exists ((v, None) :: new).
      split; [by rewrite <- app_assoc|].
      split; [by apply prefix_cons|].
      destruct r as [err|].
      * destruct Hr as (w & l0 & -> & Hl0). exists w, ((v, None) :: l0).
        split; [done|]. by constructor.
      * destruct Hr as [Heq Hall]. split; [cbn; by f_equal|].
        by constructor.
Qed.

(** X20. [removeVaultItem] removes the items in the order given and stops
    at the first removal that fails: the removals attempted are a prefix of
    the items; when it returns an error, this is the error of the last
    removal attempted, returned as it is, and that removal is the only one
    that failed; when it returns nil, all the items have been removed. *)
Theorem removeVaultItem_stops_at_first_failure {V : Type}
    (Remove : V -> string -> V * option error) items vault :
  let run := cli.removeVaultItem (traced Remove) items ([], vault) in
  let log := fst (fst run) in
  map fst log `prefix_of` items /\
  match snd run with
  | None => map fst log = items /\ allAccepted log
  | Some err => exists v, failedLast log v err
  end.
Proof.
  cbv zeta. unfold cli.removeVaultItem.
  destruct (cli.removeVaultItem_loop _ _ _) as [[log' vault'] r] eqn:Hrun.
  apply removeVaultItem_loop_log in Hrun as (new & -> & Hpre & Hr).
  by split.
Qed.

(** * Package blob: block storage in a GCS bucket *)

Lemma gcsblock_length_app (a b : string) :
  String.length (a +:+ b) = (String.length a + String.length b)%nat.
Proof.
  induction a as [|c a IH]; [done|].
  change (String c a +:+ b) with (String c (a +:+ b)).
  cbn [String.length]. by rewrite IH.
Qed.

Lemma gcsblock_app_self (p b : string) : p +:+ b = b <-> p = "".
Proof.
  split; [|by intros ->].
  intros H. apply (f_equal String.length) in H.
  rewrite gcsblock_length_app in H.
  destruct p; [done|]. cbn [String.length] in H. lia.
Qed.

Lemma gcsblock_sliceFrom_app (p s : string) :
  gcsblock.sliceFrom (String.length p) (p +:+ s) = Some s.
Proof.
  induction p as [|c p IH]; [done|].
  change (String c p +:+ s) with (String c (p +:+ s)). by cbn.
Qed.

(** X21. [ToURL] followed by [ParseURL] never fails and carries the
    bucket name over and nothing else: the other options are those of the
    receiver. [ParseURL] accepts a URL exactly when its scheme is [gcs],
    leaves the options untouched when it refuses, and what [ToURL] makes of
    the accepted options is the scheme and the host of the URL with every
    other part empty. *)
Theorem ParseURL_ToURL_round_trip
    (gso gso' : gcsblock.GCSStorageOptions) (u : gcsblock.URL) :
  let back := gcsblock.ParseURL gso' (gcsblock.ToURL gso) in
  let parsed := gcsblock.ParseURL gso' u in
  (snd back = None /\
   gcsblock.BucketName (fst back) = gcsblock.BucketName gso /\
   gcsblock.ToURL (fst back) = gcsblock.ToURL gso /\
   gcsblock.Prefix (fst back) = gcsblock.Prefix gso' /\
   gcsblock.TokenCacheFile (fst back) = gcsblock.TokenCacheFile gso' /\
   gcsblock.Token (fst back) = gcsblock.Token gso' /\
   gcsblock.ReadOnly (fst back) = gcsblock.ReadOnly gso' /\
   gcsblock.IgnoreDefaultCredentials (fst back)
     = gcsblock.IgnoreDefaultCredentials gso') /\
  (snd parsed = None <-> gcsblock.Scheme u = "gcs") /\
  match snd parsed with
  | None =>
      gcsblock.ToURL (fst parsed)
        = gcsblock.mkURL "gcs" (gcsblock.Host u) "" ""
  | Some err =>
      fst parsed = gso' /\
      err = Errorf "invalid scheme, expected 'file'" []
  end.
Proof.
  cbv zeta. split; [by repeat split|].
  unfold gcsblock.ParseURL.
  destruct (String.eqb_spec (gcsblock.Scheme u) "gcs") as [Heq|Hne]; cbn.
  - by repeat split.
  - split; [|done]. split; [done|]. intros H. by destruct Hne.
Qed.

(** X22. [PutBlock], [GetBlock] and [BlockExists] make one call each, on the
    object named by the storage prefix followed by the block ID;
    [DeleteBlock] makes one call, on the object named by the bare block
    ID. The object [DeleteBlock] asks to delete is the one [PutBlock]
    writes exactly when the storage prefix is empty. *)
Theorem DeleteBlock_addresses_bare_block_id
    (gcs : gcsblock.gcsStorage) (b data : string) (overwrite : bool) :
  let prefixed := gcsblock.Prefix (gcsblock.Options gcs) +:+ b in
  let put := snd (gcsblock.PutBlock gcs b data overwrite) in
  let del := snd (gcsblock.DeleteBlock gcs b) in
  map gcsblock.objectOf put = [Some prefixed] /\
  map gcsblock.objectOf (snd (gcsblock.GetBlock gcs b)) = [Some prefixed] /\
  map gcsblock.objectOf (snd (gcsblock.BlockExists gcs b)) = [Some prefixed] /\
  map gcsblock.objectOf del = [Some b] /\
  (map gcsblock.objectOf del = map gcsblock.objectOf put
   <-> gcsblock.Prefix (gcsblock.Options gcs) = "").
Proof.
  cbv zeta. repeat split; try done.
  - cbn. unfold gcsblock.getObjectNameString. intros H.
    apply (proj1 (gcsblock_app_self _ b)). congruence.
  - cbn. unfold gcsblock.getObjectNameString. by intros ->.
Qed.

(** X23. [GetBlock] answers [ErrBlockNotFound] exactly when the download
    fails with a [googleapi.Error] of code 404, and it answers without
    error exactly when the download and the read of its body both succeed
    and the body read is what it returns. *)
Theorem GetBlock_not_found_iff_404 (gcs : gcsblock.gcsStorage) (b : string) :
  let answer :=
    gcsblock.Download (gcsblock.service gcs)
      (gcsblock.BucketName (gcsblock.Options gcs))
      (gcsblock.Prefix (gcsblock.Options gcs) +:+ b) in
  let result := fst (gcsblock.GetBlock gcs b) in
  (snd result = Some gcsblock.ErrBlockNotFound
   <-> answer = inr (gcsblock.GoogleAPIError 404)) /\
  (snd result = None <-> answer = inl (fst result, None)).
Proof.
  cbv zeta. unfold gcsblock.GetBlock, gcsblock.getObjectNameString. cbn.
  destruct (gcsblock.Download _ _ _) as [[body [e|]]|[code|msg]]; cbn.
  - repeat split; done.
  - repeat split; done.
  - destruct (Z.eqb_spec code 404) as [->|Hne]; cbn.
    + repeat split; done.
    + repeat split; try done. congruence.
  - repeat split; done.
Qed.

Lemma gcsblock_sendItems_prefixed (parse : string -> time.Time + string)
    (gcs : gcsblock.gcsStorage) (prefix : string) :
  forall items,
    Forall (fun o => exists rest,
              gcsblock.Name o
                = gcsblock.Prefix (gcsblock.Options gcs) +:+ (prefix +:+ rest))
           items ->
    exists ms,
      gcsblock.sendItems parse gcs items = (ms, true) /\
      Forall2 (fun o m =>
                 match parse (gcsblock.TimeCreated o) with
                 | inl t =>
                     gcsblock.Name o
                       = gcsblock.Prefix (gcsblock.Options gcs)
                           +:+ gcsblock.BlockID m /\
                     (exists rest, gcsblock.BlockID m = prefix +:+ rest) /\
                     gcsblock.Length m = gcsblock.Size o /\
                     gcsblock.TimeStamp m = t /\
                     gcsblock.Error m = None
                 | inr e =>
                     m = gcsblock.mkBlockMetadata "" 0 time.zero (Some e)
                 end)
              items ms.
Proof.
  induction 1 as [|o items [rest Ho] _ [ms [Hms HF]]].
  - exists []. by split.
  - cbn [gcsblock.sendItems]. unfold gcsblock.blockMetadataOf.
    destruct (parse (gcsblock.TimeCreated o)) as [t|e] eqn:Hp.
    + rewrite Ho, gcsblock_sliceFrom_app, Hms.
      eexists. split; [done|]. constructor; [|done].
      rewrite Hp. cbn. rewrite Ho. repeat split; try done. by exists rest.
    + rewrite Hms. eexists. split; [done|]. constructor; [|done].
      by rewrite Hp.
Qed.

(** X24. When the service answers the first request with a page whose next
    page token is empty, and names only objects that begin with the
    requested prefix (the storage prefix followed by the block prefix),
    [ListBlocks] makes that one request, sends one record for each object
    of the page, in order, and closes the channel, whatever the number of
    rounds allowed beyond the first. The record of an object whose creation
    time parses has the object's name without the storage prefix as block
    ID, which begins with the block prefix asked for, and the object's size
    and time; the record of an object whose creation time does not parse
    carries the parse error and nothing else. *)
Theorem ListBlocks_single_page (parse : string -> time.Time + string)
    (gcs : gcsblock.gcsStorage) (prefix : string) (page : gcsblock.Objects)
    (fuel : nat) :
  let bucket := gcsblock.BucketName (gcsblock.Options gcs) in
  let ps := gcsblock.Prefix (gcsblock.Options gcs) +:+ prefix in
  gcsblock.List (gcsblock.service gcs) bucket ps None = Some page ->
  gcsblock.NextPageToken page = "" ->
  Forall (fun o => exists rest,
            gcsblock.Name o
              = gcsblock.Prefix (gcsblock.Options gcs) +:+ (prefix +:+ rest))
         (gcsblock.Items page) ->
  exists sent,
    gcsblock.ListBlocks parse gcs prefix (S fuel)
      = gcsblock.Closed sent [gcsblock.ListCall bucket ps None] /\
    Forall2 (fun o m =>
               match parse (gcsblock.TimeCreated o) with
               | inl t =>
                   gcsblock.Name o
                     = gcsblock.Prefix (gcsblock.Options gcs)
                         +:+ gcsblock.BlockID m /\
                   (exists rest, gcsblock.BlockID m = prefix +:+ rest) /\
                   gcsblock.Length m = gcsblock.Size o /\
                   gcsblock.TimeStamp m = t /\
                   gcsblock.Error m = None
               | inr e =>
                   m = gcsblock.mkBlockMetadata "" 0 time.zero (Some e)
               end)
            (gcsblock.Items page) sent.
Proof.
  cbv zeta. intros Hlist Htok Hnames.
  destruct (gcsblock_sendItems_prefixed parse gcs prefix _ Hnames)
    as [ms [Hms HF]].
  exists ms. split; [|done].
  unfold gcsblock.ListBlocks, gcsblock.getObjectNameString.
  rewrite Hlist. cbn [gcsblock.ListBlocks_loop].
  by rewrite Hms, Htok.
Qed.

Lemma ListBlocks_single_page_witness :
  exists sent,
    gcsblock.ListBlocks gcsblock.sampleParse (gcsblock.sampleStorage "") "ab" 3
      = gcsblock.Closed sent [gcsblock.ListCall "bucket" "p/ab" None] /\
    map gcsblock.BlockID sent = ["ab1"; "ab2"].
Proof.
  destruct (ListBlocks_single_page gcsblock.sampleParse
              (gcsblock.sampleStorage "") "ab"
              (gcsblock.mkObjects
                 [gcsblock.sampleObject "p/ab1"; gcsblock.sampleObject "p/ab2"]
                 "") 2) as [sent [Hrun _]].
  - reflexivity.
  - reflexivity.
  - repeat constructor; [by exists "1"|by exists "2"].
  - exists sent. split; [exact Hrun|].
    vm_compute in Hrun. by injection Hrun as <-.
Defined.

Lemma gcsblock_loop_calls (parse : string -> time.Time + string)
    (gcs : gcsblock.gcsStorage) (ps : string) :
  forall fuel page sent calls,
    exists k,
      gcsblock.callsOf
        (gcsblock.ListBlocks_loop parse gcs ps fuel page sent calls)
      = calls ++ replicate k
          (gcsblock.ListCall (gcsblock.BucketName (gcsblock.Options gcs))
             ps (Some ps)) /\
      (k <= fuel)%nat.
Proof.
  induction fuel as [|fuel IH]; intros page sent calls.
  - exists 0%nat. cbn. by rewrite app_nil_r.
  - cbn [gcsblock.ListBlocks_loop].
    destruct page as [p|]; [|exists 0%nat; cbn; rewrite app_nil_r; split; [done|lia]].
    destruct (gcsblock.sendItems parse gcs (gcsblock.Items p)) as [ms [|]];
      [|exists 0%nat; cbn; rewrite app_nil_r; split; [done|lia]].
    destruct (negb _);
      [|exists 0%nat; cbn; rewrite app_nil_r; split; [done|lia]].
    cbv zeta.
    destruct (IH (gcsblock.List (gcsblock.service gcs)
                    (gcsblock.BucketName (gcsblock.Options gcs)) ps (Some ps))
                 (sent ++ ms)
                 (calls ++ [gcsblock.ListCall
                              (gcsblock.BucketName (gcsblock.Options gcs))
                              ps (Some ps)])) as [k [Hk Hle]].
    exists (S k). split; [|lia].
    rewrite Hk, <- app_assoc. done.
Qed.

(** X25. Whatever the service answers and however long [ListBlocks] is
    followed, its first request carries no page token and every later
    request is the same one: the prefix asked for, with that same prefix as
    page token. The next page token of a page is tested for emptiness and
    never sent back to the service. *)
Theorem ListBlocks_requests (parse : string -> time.Time + string)
    (gcs : gcsblock.gcsStorage) (prefix : string) (fuel : nat) :
  let bucket := gcsblock.BucketName (gcsblock.Options gcs) in
  let ps := gcsblock.Prefix (gcsblock.Options gcs) +:+ prefix in
  exists k,
    (k <= fuel)%nat /\
    gcsblock.callsOf (gcsblock.ListBlocks parse gcs prefix fuel)
    = gcsblock.ListCall bucket ps None
        :: replicate k (gcsblock.ListCall bucket ps (Some ps)).
Proof.
  cbv zeta. unfold gcsblock.ListBlocks, gcsblock.getObjectNameString.
  destruct (gcsblock_loop_calls parse gcs
              (gcsblock.Prefix (gcsblock.Options gcs) +:+ prefix) fuel
              (gcsblock.List (gcsblock.service gcs)
                 (gcsblock.BucketName (gcsblock.Options gcs))
                 (gcsblock.Prefix (gcsblock.Options gcs) +:+ prefix) None)
              []
              [gcsblock.ListCall (gcsblock.BucketName (gcsblock.Options gcs))
                 (gcsblock.Prefix (gcsblock.Options gcs) +:+ prefix) None])
    as [k [Hk Hle]].
  exists k. split; [done|]. by rewrite Hk.
Qed.

Lemma gcsblock_loop_never_closes (parse : string -> time.Time + string)
    (gcs : gcsblock.gcsStorage) (ps : string) (next : gcsblock.Objects) :
  gcsblock.List (gcsblock.service gcs)
    (gcsblock.BucketName (gcsblock.Options gcs)) ps (Some ps) = Some next ->
  gcsblock.NextPageToken next <> "" ->
  forall fuel page sent calls,
    (page = Some next \/
     exists first, page = Some first /\ gcsblock.NextPageToken first <> "") ->
    gcsblock.isClosed
      (gcsblock.ListBlocks_loop parse gcs ps fuel page sent calls) = false.
Proof.
  intros Hnext Htok.
  induction fuel as [|fuel IH]; intros page sent calls Hpage; [done|].
  assert (exists p, page = Some p /\ gcsblock.NextPageToken p <> "")
    as [p [-> Hp]].
  { destruct Hpage as [->|[first [-> Hf]]]; eauto. }
  cbn [gcsblock.ListBlocks_loop].
  destruct (gcsblock.sendItems parse gcs (gcsblock.Items p)) as [ms [|]];
    [|done].
  destruct (String.eqb_spec (gcsblock.NextPageToken p) "") as [Heq|_];
    [done|].
  cbn [negb]. cbv zeta. rewrite Hnext. apply IH. by left.
Qed.

(** X26. When the first page has a next page token, and the page the
    service gives for the repeated request (the prefix as page token) has
    one too, [ListBlocks] does not close its channel, however long it is
    followed: it is still requesting pages, or it has panicked on a
    name shorter than the storage prefix. *)
Theorem ListBlocks_never_closes (parse : string -> time.Time + string)
    (gcs : gcsblock.gcsStorage) (prefix : string)
    (first next : gcsblock.Objects) (fuel : nat) :
  let bucket := gcsblock.BucketName (gcsblock.Options gcs) in
  let ps := gcsblock.Prefix (gcsblock.Options gcs) +:+ prefix in
  gcsblock.List (gcsblock.service gcs) bucket ps None = Some first ->
  gcsblock.NextPageToken first <> "" ->
  gcsblock.List (gcsblock.service gcs) bucket ps (Some ps) = Some next ->
  gcsblock.NextPageToken next <> "" ->
  gcsblock.isClosed (gcsblock.ListBlocks parse gcs prefix fuel) = false.
Proof.
  cbv zeta. intros Hfirst Hft Hnext Hnt.
  unfold gcsblock.ListBlocks, gcsblock.getObjectNameString.
  rewrite Hfirst.
  apply (gcsblock_loop_never_closes parse gcs _ next Hnext Hnt).
  right. by exists first.
Qed.

Lemma ListBlocks_never_closes_witness :
  gcsblock.isClosed
    (gcsblock.ListBlocks gcsblock.sampleParse (gcsblock.sampleStorage "t")
       "ab" 5) = false.
Proof.
  apply (ListBlocks_never_closes gcsblock.sampleParse
           (gcsblock.sampleStorage "t") "ab"
           (gcsblock.mkObjects
              [gcsblock.sampleObject "p/ab1"; gcsblock.sampleObject "p/ab2"]
              "t")
           (gcsblock.mkObjects
              [gcsblock.sampleObject "p/ab1"; gcsblock.sampleObject "p/ab2"]
              "t") 5).
  - reflexivity.
  - discriminate.
  - reflexivity.
  - discriminate.
Defined.
